(** * Slide system: segmentation of a page into slides and slide navigation

    A shallow embedding of [docs/js/slide-system.js].  The script keeps four
    module-level variables ([currentSlide], [slides], [slideNav],
    [slideDots]) and reacts to clicks, key presses and fragment changes.

    - Part 1 embeds the body of [createSlides] as list functions over any
      element type that has a [tagName].
    - Part 2 embeds the page: the elements the script reads, the elements it
      creates (held by reference, since the script mutates them through its
      variables while they sit in the document), and the handlers.
    - Part 3 proves the properties. *)

From Stdlib Require Import ZArith String Ascii DecimalString DecimalPos.
From stdpp Require Import base decidable numbers option list sets sorting strings.

Local Open Scope string_scope.
Local Open Scope nat_scope.
Local Open Scope list_scope.

(** ** Part 1: the segmentation algorithm of [createSlides] *)

Section Segmentation.
Context {A : Type}.

(** [tagOf el] is [el.tagName]. *)
Context (tagOf : A → string).

(** [content.findIndex(p)]: [None] stands for the result [-1]. *)
Fixpoint findIndex (p : A → bool) (l : list A) : option nat :=
  match l with
  | [] => None
  | el :: l' => if p el then Some 0 else S <$> findIndex p l'
  end.

(** The [content.forEach((el, index) => ...)] that collects the h2 and hr
    break points; [n] is [content.length], [index] the index of the head
    of [rest] in [content]. *)
Fixpoint forEachBreaks (n index : nat) (rest : list A) : list nat :=
  match rest with
  | [] => []
  | el :: rest' =>
      (if bool_decide (tagOf el = "H2") || bool_decide (tagOf el = "HR") then
         if bool_decide (tagOf el = "HR") && bool_decide (index + 1 < n)
         then [index + 1]
         else if bool_decide (tagOf el = "H2") then [index] else []
       else [])
      ++ forEachBreaks n (S index) rest'
  end.

(** The array [slideBreakPoints] when the loop over it starts: the index
    of the first h1 (if any), the h2/hr break points in document order,
    and the end marker. *)
Definition slideBreakPoints (content : list A) : list nat :=
  (match findIndex (λ el, bool_decide (tagOf el = "H1")) content with
   | Some h1Index => [h1Index]
   | None => []
   end)
  ++ forEachBreaks (length content) 0 content
  ++ [length content].

(** [content.slice(start, end)] for [0 <= start] and [0 <= end]: empty
    when [end <= start], cut at the end of the array. *)
Definition slice (start end_ : nat) (l : list A) : list A :=
  take (end_ - start) (drop start l).

(** The test guarding the creation of a slide. *)
Definition keepSlide (slideContent : list A) : bool :=
  bool_decide (0 < length slideContent) &&
  negb (bool_decide (length slideContent = 1) &&
        match slideContent with
        | el :: _ => bool_decide (tagOf el = "HR")
        | [] => false
        end).

(** The elements appended to one [slideDiv]. *)
Definition slideChildren (slideContent : list A) : list A :=
  filter (λ el, tagOf el ≠ "HR") slideContent.

(** The [for] loop over consecutive break points; the result lists, in
    order, the children of every [slideDiv] pushed onto [slides]. *)
Fixpoint slideLoop (content : list A) (breakPoints : list nat) : list (list A) :=
  match breakPoints with
  | start :: ((end_ :: _) as rest) =>
      let slideContent := slice start end_ content in
      (if keepSlide slideContent then [slideChildren slideContent] else [])
      ++ slideLoop content rest
  | _ => []
  end.

Definition slideGroups (content : list A) : list (list A) :=
  slideLoop content (slideBreakPoints content).

(** The smallest break point: where the first candidate slide starts. *)
Definition firstBoundary (content : list A) : nat :=
  foldr Nat.min (length content) (slideBreakPoints content).

End Segmentation.

(** ** Part 2: the page, the script's variables and its handlers *)

(** *** Strings and numbers *)

(** [`${n}`] for an integer [n]. *)
Definition Number_toString (n : Z) : string :=
  NilZero.string_of_int (Z.to_int n).

(** The character class [\d]. *)
Definition isDigit (c : ascii) : bool :=
  (48 <=? nat_of_ascii c) && (nat_of_ascii c <=? 57).

(** The longest run of digits at the start of a string: what [\d+] takes. *)
Fixpoint takeDigits (s : string) : string :=
  match s with
  | String c s' => if isDigit c then String c (takeDigits s') else ""
  | EmptyString => ""
  end.

(** [dropPrefix p s] is the rest of [s] after the literal [p], when [s]
    starts with [p]. *)
Fixpoint dropPrefix (p s : string) : option string :=
  match p with
  | EmptyString => Some s
  | String a p' =>
      match s with
      | String b s' => if Ascii.eqb a b then dropPrefix p' s' else None
      | EmptyString => None
      end
  end.

(** A match of [/slide-(\d+)/] that starts at the first character of [s]:
    the result is the captured group. *)
Definition matchHere (s : string) : option string :=
  match dropPrefix "slide-" s with
  | Some rest =>
      match takeDigits rest with
      | EmptyString => None
      | ds => Some ds
      end
  | None => None
  end.

(** [hash.match(/slide-(\d+)/)]: the pattern is tried at every position
    from the left; the result is [slideMatch[1]], [None] stands for a
    [null] match. *)
Fixpoint slideMatch (hash : string) : option string :=
  match hash with
  | EmptyString => None
  | String _ hash' =>
      match matchHere hash with
      | Some ds => Some ds
      | None => slideMatch hash'
      end
  end.

(** Helpers to say where a match is: all characters of [s] are digits; [s]
    starts with a digit; no match of the pattern starts at any of the first
    [n] positions of [s]. *)
Fixpoint allDigits (s : string) : bool :=
  match s with
  | String c s' => isDigit c && allDigits s'
  | EmptyString => true
  end.



Definition digitValue (c : ascii) : Z := Z.of_nat (nat_of_ascii c - 48).

Fixpoint parseDigits (acc : Z) (s : string) : Z :=
  match s with
  | String c s' => parseDigits (10 * acc + digitValue c) s'
  | EmptyString => acc
  end.

(** [parseInt(s)] for a string that starts with a digit other than a
    leading ["0x"]: the value of its leading run of digits.  Every call in
    the script is of that kind (a captured [\d+], or a key between ["1"]
    and ["9"]).  The value is exact here; the script's is rounded from
    2^53 on, far beyond any slide count, so both are out of range
    together. *)
Definition parseInt (s : string) : Z := parseDigits 0 (takeDigits s).

(** *** Class lists *)

Definition classList_contains (c : string) (cl : list string) : bool :=
  bool_decide (c ∈ cl).

Definition classList_add (c : string) (cl : list string) : list string :=
  if bool_decide (c ∈ cl) then cl else cl ++ [c].

Definition classList_remove (c : string) (cl : list string) : list string :=
  filter (λ x, x ≠ c) cl.

(** [classList.toggle(c, force)]. *)
Definition classList_toggle (c : string) (force : bool) (cl : list string)
  : list string :=
  if force then classList_add c cl else classList_remove c cl.

(** *** Elements *)

(** An element of the page as loaded.  The script reads its tag and its
    classes, moves it or removes it, and never changes it; [node_id] tells
    two elements with the same tag and classes apart. *)
Record Element := mkElement {
  node_id : nat;
  tagName : string;
  classList : list string
}.

(** A child of [main] or of a slide: an element of the page, or a reference
    to an element that the script has created.  The created elements are
    mutated through the script's variables while they are in the document,
    so they live in stores of the state and are named by their position
    there. *)
Inductive Child :=
| Page (e : Element)
| SlideRef (h : nat)
| NavRef (h : nat)
| DotsRef (h : nat).

(** A [div.slide]. *)
Record SlideDiv := mkSlideDiv {
  slide_classList : list string;
  slide_children : list Child
}.

(** A [div.slide-nav]: the text of its counter and its two buttons. *)
Record SlideNav := mkSlideNav {
  counter_textContent : string;
  prev_disabled : bool;
  next_disabled : bool
}.

(** A [div.slide-dot]. *)
Record Dot := mkDot {
  dot_classList : list string;
  dot_dataset_slide : nat
}.

(** A [.mode-btn]. *)
Record ModeBtn := mkModeBtn {
  btn_dataset_mode : string;
  btn_classList : list string
}.

#[global] Instance Element_eq_dec : EqDecision Element.
Proof. solve_decision. Defined.

#[global] Instance Child_eq_dec : EqDecision Child.
Proof. solve_decision. Defined.

(** *** The state *)

Record State := mkState {
  (* the script's variables *)
  currentSlide : Z;
  slides : list nat;             (* references to [div.slide] elements *)
  slideNav : option nat;         (* [None] is [null] *)
  slideDots : option nat;
  (* the elements created so far *)
  slideEls : list SlideDiv;
  navEls : list SlideNav;
  dotsEls : list (list Dot);
  (* the document *)
  main_children : list Child;
  body_classList : list string;
  modeBtns : list ModeBtn;
  location_fragment : string     (* the fragment, without its ["#"] *)
}.

(** [slides.length]. *)
Definition slides_length (st : State) : Z := Z.of_nat (length (slides st)).

(** Reading [window.location.hash]. *)
Definition location_hash (st : State) : string :=
  match location_fragment st with
  | EmptyString => ""
  | f => String "#" f
  end.

(** Assigning [window.location.hash = v]: one leading ["#"] of [v] is not
    part of the fragment. *)
Definition set_location_hash (v : string) (st : State) : State :=
  mkState (currentSlide st) (slides st) (slideNav st) (slideDots st)
    (slideEls st) (navEls st) (dotsEls st)
    (main_children st) (body_classList st) (modeBtns st)
    (match v with
     | String "#" f => f
     | _ => v
     end).

Definition child_tagName (c : Child) : string :=
  match c with
  | Page e => tagName e
  | _ => "DIV"
  end.

Definition child_classList (st : State) (c : Child) : list string :=
  match c with
  | Page e => classList e
  | SlideRef h => default [] (slide_classList <$> slideEls st !! h)
  | NavRef _ => ["slide-nav"]
  | DotsRef _ => ["slide-dots"]
  end.

(** *** The functions of the script *)

(** The test of the [filter] at the start of [createSlides]: [el] is one of
    the controls, not content. *)
Definition isControl (st : State) (el : Child) : bool :=
  classList_contains "mode-toggle" (child_classList st el) ||
  classList_contains "slide-nav" (child_classList st el) ||
  classList_contains "slide-dots" (child_classList st el) ||
  classList_contains "keyboard-hint" (child_classList st el).

(** [content] in [createSlides]. *)
Definition contentOf (st : State) : list Child :=
  filter (λ el, isControl st el = false) (main_children st).

(** [createSlides()].  Each kept group of content gets a fresh [div.slide]:
    its children are moved out of [main], the wrapper is pushed onto
    [slides] and appended to [main]; at the end the [hr] elements left in
    [main] are removed. *)
Definition createSlides (st : State) : State :=
  let groups := slideGroups child_tagName (contentOf st) in
  let fresh := seq (length (slideEls st)) (length groups) in
  mkState (currentSlide st)
    fresh
    (slideNav st) (slideDots st)
    (slideEls st ++ (mkSlideDiv ["slide"] <$> groups))
    (navEls st) (dotsEls st)
    (filter (λ el, child_tagName el ≠ "HR")
       (list_difference (main_children st) (concat groups)
        ++ (SlideRef <$> fresh)))
    (body_classList st) (modeBtns st) (location_fragment st).

(** [createNavigation()]: a new [div.slide-nav] with the counter at
    ["1 of N"], a new [div.slide-dots] with a dot for each of the first ten
    slides, both appended to [main]. *)
Definition createNavigation (st : State) : State :=
  mkState (currentSlide st) (slides st)
    (Some (length (navEls st)))
    (Some (length (dotsEls st)))
    (slideEls st)
    (navEls st ++
       [mkSlideNav ("1 of " +:+ Number_toString (slides_length st)) false false])
    (dotsEls st ++
       [mkDot ["slide-dot"] <$> seq 0 (Nat.min (length (slides st)) 10)])
    (main_children st ++
       [NavRef (length (navEls st)); DotsRef (length (dotsEls st))])
    (body_classList st) (modeBtns st) (location_fragment st).

Definition slide_setClasses (f : list string → list string) (s : SlideDiv)
  : SlideDiv :=
  mkSlideDiv (f (slide_classList s)) (slide_children s).

Definition dot_setClasses (f : list string → list string) (d : Dot) : Dot :=
  mkDot (f (dot_classList d)) (dot_dataset_slide d).

(** The statements of [showSlide(index)] after its guard, one definition
    for each store they update. *)

(** [slides.forEach(slide => slide.classList.remove('active'))], then
    [slides[index].classList.add('active')]. *)
Definition showSlide_slideEls (index : Z) (st : State) : list SlideDiv :=
  let hidden :=
    foldl (λ els h, alter (slide_setClasses (classList_remove "active")) h els)
          (slideEls st) (slides st) in
  match slides st !! Z.to_nat index with
  | Some h => alter (slide_setClasses (classList_add "active")) h hidden
  | None => hidden
  end.

(** [if (slideNav)]: the text of the counter and the [disabled] state of
    the two buttons. *)
Definition showSlide_navEls (index : Z) (st : State) : list SlideNav :=
  match slideNav st with
  | Some h =>
      alter (λ _, mkSlideNav
                    (Number_toString (index + 1) +:+ " of " +:+
                     Number_toString (slides_length st))
                    (bool_decide (index = 0)%Z)
                    (bool_decide (index = slides_length st - 1)%Z))
            h (navEls st)
  | None => navEls st
  end.

(** [if (slideDots)]: [dot.classList.toggle('active', i === index)] for
    every dot. *)
Definition showSlide_dotsEls (index : Z) (st : State) : list (list Dot) :=
  match slideDots st with
  | Some h =>
      alter (imap (λ i, dot_setClasses
                          (classList_toggle "active"
                             (bool_decide (Z.of_nat i = index)))))
            h (dotsEls st)
  | None => dotsEls st
  end.

(** [showSlide(index)]. *)
Definition showSlide (index : Z) (st : State) : State :=
  if bool_decide (index < 0)%Z || bool_decide (index >= slides_length st)%Z
  then st
  else
    set_location_hash ("slide-" +:+ Number_toString (index + 1))
      (mkState index (slides st) (slideNav st) (slideDots st)
         (showSlide_slideEls index st)
         (showSlide_navEls index st)
         (showSlide_dotsEls index st)
         (main_children st) (body_classList st) (modeBtns st)
         (location_fragment st)).

Definition nextSlide (st : State) : State :=
  if bool_decide (currentSlide st < slides_length st - 1)%Z
  then showSlide (currentSlide st + 1) st
  else st.

Definition prevSlide (st : State) : State :=
  if bool_decide (currentSlide st > 0)%Z
  then showSlide (currentSlide st - 1) st
  else st.

Definition goToSlide (index : Z) (st : State) : State := showSlide index st.

(** *** The listeners *)

Definition set_modeBtns (btns : list ModeBtn) (st : State) : State :=
  mkState (currentSlide st) (slides st) (slideNav st) (slideDots st)
    (slideEls st) (navEls st) (dotsEls st)
    (main_children st) (body_classList st) btns (location_fragment st).

Definition set_body_classList (cl : list string) (st : State) : State :=
  mkState (currentSlide st) (slides st) (slideNav st) (slideDots st)
    (slideEls st) (navEls st) (dotsEls st)
    (main_children st) cl (modeBtns st) (location_fragment st).

Definition btn_setClasses (f : list string → list string) (b : ModeBtn)
  : ModeBtn :=
  mkModeBtn (btn_dataset_mode b) (f (btn_classList b)).

(** The first part of the click listener of a mode button, up to and
    including the one-time initialisation: the button states, the body
    class and, when [slides] is empty, [createSlides] and
    [createNavigation]. *)
Definition enterSlides (k : nat) (st : State) : State :=
  let st1 :=
    set_modeBtns
      (alter (btn_setClasses (classList_add "active")) k
         (btn_setClasses (classList_remove "active") <$> modeBtns st)) st in
  let st2 :=
    set_body_classList (classList_add "slides-mode" (body_classList st1)) st1 in
  if bool_decide (slides_length st2 = 0)%Z
  then createNavigation (createSlides st2)
  else st2.

(** The end of the same branch: "check for hash or show first slide". *)
Definition resolveInitialSlide (st : State) : State :=
  match slideMatch (location_hash st) with
  | Some ds => showSlide (parseInt ds - 1) st
  | None => showSlide 0 st
  end.

(** The click listener of the mode button number [k]. *)
Definition modeBtn_click (k : nat) (st : State) : State :=
  match modeBtns st !! k with
  | None => st
  | Some this =>
      if bool_decide (btn_dataset_mode this = "slides")
      then resolveInitialSlide (enterSlides k st)
      else
        let st1 :=
          set_modeBtns
            (alter (btn_setClasses (classList_add "active")) k
               (btn_setClasses (classList_remove "active") <$> modeBtns st))
            st in
        set_location_hash ""
          (set_body_classList
             (classList_remove "slides-mode" (body_classList st1)) st1)
  end.

(** The [Escape] branch: every button whose mode is ["docs"] is clicked, in
    order. *)
Fixpoint clickDocsBtns (k : nat) (btns : list ModeBtn) (st : State) : State :=
  match btns with
  | [] => st
  | btn :: btns' =>
      clickDocsBtns (S k) btns'
        (if bool_decide (btn_dataset_mode btn = "docs")
         then modeBtn_click k st
         else st)
  end.

(** The [keydown] listener; [key] is [e.key]. *)
Definition keydown (key : string) (st : State) : State :=
  if negb (classList_contains "slides-mode" (body_classList st)) then st
  else if bool_decide (key = "ArrowLeft") then prevSlide st
  else if bool_decide (key = "ArrowRight") || bool_decide (key = " ")
       then nextSlide st
  else if bool_decide (key = "Home") then goToSlide 0 st
  else if bool_decide (key = "End") then goToSlide (slides_length st - 1) st
  else if bool_decide (key = "Escape")
       then clickDocsBtns 0 (modeBtns st) st
  else if String.leb "1" key && String.leb key "9" then
    let slideNum := (parseInt key - 1)%Z in
    if bool_decide (slideNum < slides_length st)%Z
    then goToSlide slideNum st
    else st
  else st.

(** The [hashchange] listener. *)
Definition hashchange (st : State) : State :=
  if classList_contains "slides-mode" (body_classList st) then
    match slideMatch (location_hash st) with
    | Some ds => showSlide (parseInt ds - 1) st
    | None => st
    end
  else st.

(** *** Runs of the page *)

(** What can happen to the page: a click on a mode button, on the previous
    or next button of a navigation bar, on a dot; a key press; the browser
    reporting a changed fragment; the user putting a fragment in the
    address bar. *)
Inductive Event :=
| ModeClick (k : nat)
| PrevClick
| NextClick
| DotClick (h i : nat)
| KeyDown (key : string)
| HashChange
| Navigate (fragment : string).

Definition handle (ev : Event) (st : State) : State :=
  match ev with
  | ModeClick k => modeBtn_click k st
  | PrevClick => if bool_decide (navEls st = []) then st else prevSlide st
  | NextClick => if bool_decide (navEls st = []) then st else nextSlide st
  | DotClick h i =>
      match dotsEls st !! h ≫= (.!! i) with
      | Some _ => goToSlide (Z.of_nat i) st
      | None => st
      end
  | KeyDown key => keydown key st
  | HashChange => hashchange st
  | Navigate fragment => set_location_hash fragment st
  end.

(** The page when [DOMContentLoaded] fires. *)
Definition initial (page : list Element) (bodyClasses : list string)
    (btns : list ModeBtn) (fragment : string) : State :=
  mkState 0 [] None None [] [] [] (Page <$> page) bodyClasses btns fragment.

Definition run (evs : list Event) (st : State) : State :=
  foldl (λ s ev, handle ev s) st evs.

Inductive reachable : State → Prop :=
| reachable_initial page bodyClasses btns fragment :
    reachable (initial page bodyClasses btns fragment)
| reachable_step ev st :
    reachable st → reachable (handle ev st).

(** *** Observations *)

(** The slide that [slides[k]] refers to. *)
Definition slideAt (st : State) (k : nat) : option SlideDiv :=
  slides st !! k ≫= (slideEls st !!.).

(** The children of the slides, in the order of [slides]. *)
Definition slideContents (st : State) : list (list Child) :=
  omap (λ h, slide_children <$> slideEls st !! h) (slides st).

(** Whether [slides[k]] carries the class [active]. *)
Definition slideIsActive (st : State) (k : nat) : bool :=
  match slideAt st k with
  | Some s => classList_contains "active" (slide_classList s)
  | None => false
  end.

(** The indices of the slides that carry the class [active]. *)
Definition activeSlides (st : State) : list nat :=
  filter (λ k, slideIsActive st k = true) (seq 0 (length (slides st))).

(** The text of the counter of the current navigation bar. *)
Definition counterText (st : State) : option string :=
  counter_textContent <$> (slideNav st ≫= (navEls st !!.)).

(** The dots of the current dot bar. *)
Definition currentDots (st : State) : list Dot :=
  default [] (slideDots st ≫= (dotsEls st !!.)).

(** The indices of the dots that carry the class [active]. *)
Definition activeDots (st : State) : list nat :=
  filter (λ i, classList_contains "active"
                 (default [] (dot_classList <$> currentDots st !! i)) = true)
         (seq 0 (length (currentDots st))).

(** *** Well-formed states *)

(** What the handlers maintain: [slides] holds distinct references to
    existing slides, and once there is a slide, [slideNav] and [slideDots]
    refer to an existing navigation bar and to an existing dot bar that has
    a dot for each of the first ten slides. *)
Definition wf (st : State) : Prop :=
  NoDup (slides st) ∧
  Forall (λ h, h < length (slideEls st)) (slides st) ∧
  (slides st ≠ [] →
   (∃ hn, slideNav st = Some hn ∧ hn < length (navEls st)) ∧
   (∃ hd ds, slideDots st = Some hd ∧ dotsEls st !! hd = Some ds ∧
             length ds = Nat.min (length (slides st)) 10)).

(** *** Further observations *)

(** The current navigation bar. *)
Definition currentNav (st : State) : option SlideNav :=
  slideNav st ≫= (navEls st !!.).

(** The indices of the mode buttons that carry the class [active]. *)
Definition activeBtns (st : State) : list nat :=
  filter (λ k, classList_contains "active"
                 (default [] (btn_classList <$> modeBtns st !! k)) = true)
         (seq 0 (length (modeBtns st))).

(** A content node that is no boundary signal. *)
Definition noBoundary (el : Child) : Prop :=
  child_tagName el ≠ "H1" ∧ child_tagName el ≠ "H2" ∧ child_tagName el ≠ "HR".

(** *** Agreement of the display with the current slide *)

(** What the handlers maintain between the current index and what the page
    displays: the index is in range; the counter reads the index; at most
    one slide and at most one dot are marked, those of the index; while a
    slide is marked the two buttons are disabled exactly at the ends; there
    is a dot for each of the first ten slides, labelled with its index. *)
Definition consistent (st : State) : Prop :=
  (0 ≤ currentSlide st)%Z ∧
  (slides st = [] → currentSlide st = 0%Z) ∧
  (slides st ≠ [] → (currentSlide st < slides_length st)%Z) ∧
  (∀ text, counterText st = Some text →
     text = Number_toString (currentSlide st + 1) +:+ " of " +:+
            Number_toString (slides_length st)) ∧
  (activeSlides st = [] ∨ activeSlides st = [Z.to_nat (currentSlide st)]) ∧
  (activeDots st = [] ∨ activeDots st = [Z.to_nat (currentSlide st)]) ∧
  (activeSlides st ≠ [] →
   ∀ nav, currentNav st = Some nav →
     prev_disabled nav = bool_decide (currentSlide st = 0)%Z ∧
     next_disabled nav
     = bool_decide (currentSlide st = slides_length st - 1)%Z) ∧
  length (currentDots st) = Nat.min (length (slides st)) 10 ∧
  (∀ i d, currentDots st !! i = Some d → dot_dataset_slide d = i).

(** *** A sample page *)

(** A page with a title, two sections and a rule, and the two mode
    buttons; [sampleShown] is the page after a click on "slides". *)
Definition samplePage : list Element :=
  [mkElement 0 "H1" []; mkElement 1 "P" []; mkElement 2 "H2" [];
   mkElement 3 "P" []; mkElement 4 "HR" []; mkElement 5 "P" [];
   mkElement 6 "H2" []; mkElement 7 "P" []].

Definition sampleBtns : list ModeBtn :=
  [mkModeBtn "docs" ["mode-btn"; "active"]; mkModeBtn "slides" ["mode-btn"]].

Definition sampleLoaded : State := initial samplePage [] sampleBtns "".

Definition sampleShown : State := handle (ModeClick 1) sampleLoaded.

(** The key with the digit [n] on it. *)
Definition digitKey (n : nat) : string := String (ascii_of_nat (48 + n)) "".

(** ** Part 3: properties *)

(** *** Segmentation *)

Section SegmentationFacts.
Context {A : Type} (tagOf : A → string).

Lemma slice_app (s e n : nat) (l : list A) :
  s ≤ e → e ≤ n → slice s e l ++ slice e n l = slice s n l.
Proof.
  intros Hse Hen. unfold slice.
  replace (drop e l) with (drop (e - s) (drop s l))
    by (rewrite drop_drop; f_equal; lia).
  rewrite take_take_drop. f_equal. lia.
Qed.

Lemma slice_empty (s e : nat) (l : list A) : e ≤ s → slice s e l = [].
Proof. intros H. unfold slice. by replace (e - s) with 0 by lia. Qed.

Lemma slice_to_end (s : nat) (l : list A) :
  slice s (length l) l = drop s l.
Proof. unfold slice. apply take_ge. rewrite length_drop. lia. Qed.

Lemma slice_length (s e : nat) (l : list A) :
  length (slice s e l) = Nat.min (e - s) (length l - s).
Proof. unfold slice. by rewrite length_take, length_drop. Qed.

Lemma slice_head (s e : nat) (l : list A) (el : A) (rest : list A) :
  slice s e l = el :: rest → l !! s = Some el ∧ s < e.
Proof.
  unfold slice. intros H. destruct (e - s) as [|k] eqn:Hk; [done|].
  split; [|lia]. destruct (drop s l) as [|x xs] eqn:Hd; [done|].
  simpl in H. injection H as -> _.
  rewrite <- (Nat.add_0_r s), <- lookup_drop, Hd. done.
Qed.

Lemma slideChildren_app (l1 l2 : list A) :
  slideChildren tagOf (l1 ++ l2)
  = slideChildren tagOf l1 ++ slideChildren tagOf l2.
Proof. apply filter_app. Qed.

(** A candidate that is not kept contributes no child. *)
Lemma slideChildren_not_kept (slideContent : list A) :
  keepSlide tagOf slideContent = false → slideChildren tagOf slideContent = [].
Proof.
  unfold keepSlide, slideChildren. destruct slideContent as [|el [|el' rest]]; simpl.
  - done.
  - intros H. repeat case_bool_decide; simplify_eq/=; try lia.
    rewrite filter_cons_False by (intros Hne; done). done.
  - intros H. repeat case_bool_decide; simplify_eq/=; lia.
Qed.

Lemma concat_slideLoop_sorted (content : list A) (s : nat) (bps : list nat) :
  StronglySorted le (s :: bps) →
  last (s :: bps) = Some (length content) →
  concat (slideLoop tagOf content (s :: bps))
  = slideChildren tagOf (drop s content).
Proof.
  revert s. induction bps as [|e bps IH]; intros s Hs Hl.
  - simpl in *. injection Hl as ->. by rewrite drop_all.
  - assert (s ≤ e ∧ e ≤ length content) as [Hse Hen].
    { apply StronglySorted_cons in Hs as [Hall Hs]. split.
      - by apply Forall_cons_1 in Hall as [? _].
      - apply StronglySorted_cons in Hs as [Hall' _].
        rewrite last_cons_cons in Hl.
        destruct bps as [|b bps'] using rev_ind.
        + simpl in Hl. injection Hl as <-. done.
        + rewrite app_comm_cons, last_snoc in Hl. injection Hl as <-.
          rewrite Forall_app, Forall_singleton in Hall'. tauto. }
    change (slideLoop tagOf content (s :: e :: bps))
      with ((if keepSlide tagOf (slice s e content)
             then [slideChildren tagOf (slice s e content)] else [])
            ++ slideLoop tagOf content (e :: bps)).
    rewrite concat_app, IH.
    + rewrite <- (slice_to_end s), <- (slice_to_end e).
      rewrite <- (slice_app s e (length content)) by done.
      rewrite slideChildren_app. f_equal.
      destruct (keepSlide tagOf (slice s e content)) eqn:Hk; simpl.
      * by rewrite app_nil_r.
      * by rewrite slideChildren_not_kept.
    + by apply StronglySorted_cons in Hs as [_ ?].
    + by rewrite last_cons_cons in Hl.
Qed.

Lemma findIndex_Some (p : A → bool) (l : list A) (h : nat) :
  findIndex p l = Some h → ∃ el, l !! h = Some el ∧ p el = true.
Proof.
  revert h. induction l as [|x l IH]; intros h; simpl; [done|].
  destruct (p x) eqn:Hp.
  - intros [= <-]. eauto.
  - destruct (findIndex p l) as [h'|]; simpl; [|done].
    intros [= <-]. by apply IH.
Qed.

Lemma forEachBreaks_lower (n i : nat) (rest : list A) (b : nat) :
  b ∈ forEachBreaks tagOf n i rest → i ≤ b.
Proof.
  revert i. induction rest as [|el rest IH]; intros i; simpl.
  - by intros ?%elem_of_nil.
  - rewrite elem_of_app. intros [Hb|Hb].
    + repeat case_bool_decide; simpl in Hb; set_unfold; lia.
    + apply IH in Hb. lia.
Qed.

Lemma forEachBreaks_upper (n i : nat) (rest : list A) (b : nat) :
  i + length rest ≤ n → b ∈ forEachBreaks tagOf n i rest → b < n.
Proof.
  revert i. induction rest as [|el rest IH]; intros i; simpl.
  - by intros _ ?%elem_of_nil.
  - intros Hn. rewrite elem_of_app. intros [Hb|Hb].
    + repeat case_bool_decide; simpl in Hb; set_unfold; lia.
    + apply IH in Hb; lia.
Qed.

Lemma forEachBreaks_sorted (n i : nat) (rest : list A) :
  StronglySorted le (forEachBreaks tagOf n i rest).
Proof.
  revert i. induction rest as [|el rest IH]; intros i; simpl.
  - constructor.
  - apply StronglySorted_app_2; [| |apply IH].
    + intros x y Hx Hy. apply forEachBreaks_lower in Hy.
      repeat case_bool_decide; simpl in Hx; set_unfold; lia.
    + repeat case_bool_decide; simpl; repeat constructor.
Qed.

(** Every rule that is not the last element leaves a break point right
    after itself. *)
Lemma forEachBreaks_hr (n i : nat) (rest : list A) (k : nat) (el : A) :
  rest !! k = Some el → tagOf el = "HR" → i + k + 1 < n →
  i + k + 1 ∈ forEachBreaks tagOf n i rest.
Proof.
  revert i k. induction rest as [|x rest IH]; intros i k; simpl; [done|].
  destruct k as [|k]; simpl.
  - intros [= ->] Hhr Hlt. apply elem_of_app; left.
    replace (i + 0 + 1) with (i + 1) by lia.
    rewrite (bool_decide_eq_true_2 (tagOf el = "HR")) by done.
    rewrite (bool_decide_eq_true_2 (i + 1 < n)) by lia.
    rewrite orb_true_r. simpl. set_solver.
  - intros Hk Hhr Hlt. apply elem_of_app; right.
    replace (i + S k + 1) with (S i + k + 1) by lia. by apply IH; [| |lia].
Qed.

Lemma breakPoints_tail_sorted (content : list A) :
  StronglySorted le
    (forEachBreaks tagOf (length content) 0 content ++ [length content]).
Proof.
  apply StronglySorted_app_2.
  - intros x y Hx ->%list_elem_of_singleton.
    apply forEachBreaks_upper in Hx; simpl; lia.
  - apply forEachBreaks_sorted.
  - repeat constructor.
Qed.

Lemma foldr_min_sorted (n s : nat) (bps : list nat) :
  StronglySorted le (s :: bps) → last (s :: bps) = Some n →
  foldr Nat.min n (s :: bps) = s.
Proof.
  revert s. induction bps as [|e bps IH]; intros s Hs Hl.
  - simpl in *. injection Hl as ->. lia.
  - change (foldr Nat.min n (s :: e :: bps))
      with (Nat.min s (foldr Nat.min n (e :: bps))).
    apply StronglySorted_cons in Hs as [Hall Hs].
    rewrite IH; [|done|by rewrite last_cons_cons in Hl].
    apply Forall_cons_1 in Hall as [? _]. lia.
Qed.

(** The slides together hold the content from the first boundary on,
    without the rules. *)
Lemma concat_slideGroups (content : list A) :
  concat (slideGroups tagOf content)
  = slideChildren tagOf (drop (firstBoundary tagOf content) content).
Proof.
  unfold slideGroups, firstBoundary, slideBreakPoints.
  pose proof (breakPoints_tail_sorted content) as Hs.
  assert (last (forEachBreaks tagOf (length content) 0 content
                ++ [length content]) = Some (length content)) as Hl
    by apply last_snoc.
  destruct (forEachBreaks tagOf (length content) 0 content
            ++ [length content]) as [|b0 tl] eqn:Htl.
  { by destruct (forEachBreaks tagOf (length content) 0 content). }
  destruct (findIndex _ content) as [h1Index|]; simpl app.
  - change (slideLoop tagOf content (h1Index :: b0 :: tl))
      with ((if keepSlide tagOf (slice h1Index b0 content)
             then [slideChildren tagOf (slice h1Index b0 content)] else [])
            ++ slideLoop tagOf content (b0 :: tl)).
    change (foldr Nat.min (length content) (h1Index :: b0 :: tl))
      with (Nat.min h1Index (foldr Nat.min (length content) (b0 :: tl))).
    rewrite (foldr_min_sorted _ _ _ Hs Hl).
    destruct (decide (h1Index ≤ b0)) as [Hle|Hgt].
    + replace (Nat.min h1Index b0) with h1Index by lia.
      rewrite <- (concat_slideLoop_sorted content h1Index (b0 :: tl)); [done| |done].
      apply StronglySorted_cons. split; [|done].
      apply StronglySorted_cons in Hs as [Hall _].
      constructor; [done|]. eapply Forall_impl; [exact Hall|]. simpl; lia.
    + replace (Nat.min h1Index b0) with b0 by lia.
      rewrite slice_empty by lia. simpl.
      by apply concat_slideLoop_sorted.
  - rewrite (foldr_min_sorted _ _ _ Hs Hl). by apply concat_slideLoop_sorted.
Qed.

Lemma foldr_min_zero (n : nat) (bps : list nat) :
  0 ∈ bps → foldr Nat.min n bps = 0.
Proof.
  induction bps as [|b bps IH]; [by intros ?%elem_of_nil|].
  intros [<-|Hin]%elem_of_cons; simpl; [done|]. rewrite IH by done. lia.
Qed.

(** When the content starts with a heading, the first boundary is its
    start, and the slides hold all of the content but the rules. *)
Lemma firstBoundary_heading_first (el : A) (rest : list A) :
  tagOf el = "H1" ∨ tagOf el = "H2" →
  firstBoundary tagOf (el :: rest) = 0.
Proof.
  intros Htag. unfold firstBoundary, slideBreakPoints.
  apply foldr_min_zero. simpl. destruct Htag as [H1|H2].
  - rewrite (bool_decide_eq_true_2 _ H1). by left.
  - apply elem_of_app. right. apply elem_of_app. left.
    rewrite (bool_decide_eq_true_2 _ H2). simpl.
    case_bool_decide as Hr; [congruence|]. simpl. by left.
Qed.

Lemma elem_of_slideLoop (content : list A) (bps : list nat) (g : list A) :
  g ∈ slideLoop tagOf content bps →
  ∃ l1 s e l2, bps = l1 ++ s :: e :: l2
    ∧ keepSlide tagOf (slice s e content) = true
    ∧ g = slideChildren tagOf (slice s e content).
Proof.
  induction bps as [|s bps IH]; [by intros ?%elem_of_nil|].
  destruct bps as [|e bps]; [by intros ?%elem_of_nil|].
  change (slideLoop tagOf content (s :: e :: bps))
    with ((if keepSlide tagOf (slice s e content)
           then [slideChildren tagOf (slice s e content)] else [])
          ++ slideLoop tagOf content (e :: bps)).
  rewrite elem_of_app. intros [Hg|Hg].
  - destruct (keepSlide tagOf (slice s e content)) eqn:Hk.
    + apply list_elem_of_singleton in Hg. by exists [], s, e, bps.
    + by apply elem_of_nil in Hg.
  - destruct (IH Hg) as (l1 & s' & e' & l2 & -> & ? & ?).
    by exists (s :: l1), s', e', l2.
Qed.

(** Between two consecutive break points a rule can only be the last
    element: a kept candidate that starts with a rule would have length
    one. *)
Lemma kept_starts_with_content (content : list A) (l1 l2 : list nat)
    (s e : nat) (el : A) (rest : list A) :
  slideBreakPoints tagOf content = l1 ++ s :: e :: l2 →
  slice s e content = el :: rest →
  tagOf el = "HR" → rest = [].
Proof.
  intros Hbp Hsl Hhr.
  destruct rest as [|el' rest]; [done|]. exfalso.
  pose proof (slice_head _ _ _ _ _ Hsl) as [Hs Hse].
  pose proof (slice_length s e content) as Hlen.
  rewrite Hsl in Hlen. simpl in Hlen.
  assert (s + 1 ∈ forEachBreaks tagOf (length content) 0 content) as Hin.
  { apply (forEachBreaks_hr (length content) 0 content s el); [done|done|lia]. }
  pose proof (breakPoints_tail_sorted content) as Hsorted.
  unfold slideBreakPoints in Hbp.
  set (tl := forEachBreaks tagOf (length content) 0 content
             ++ [length content]) in *.
  assert (s + 1 ∈ tl) as Hin' by (apply elem_of_app; by left).
  assert (∃ l1', tl = l1' ++ s :: e :: l2) as [l1' Htl].
  { destruct (findIndex _ content) as [h1Index|] eqn:Hh1; [|by exists l1].
    destruct l1 as [|x l1]; simpl in Hbp.
    - injection Hbp as -> _.
      apply findIndex_Some in Hh1 as (el0 & Hel0 & Hp).
      rewrite Hs in Hel0. injection Hel0 as <-.
      apply bool_decide_eq_true_1 in Hp. congruence.
    - injection Hbp as _ ->. by exists l1. }
  rewrite Htl in Hin', Hsorted.
  apply StronglySorted_app in Hsorted as (Hbefore & _ & Hafter).
  apply StronglySorted_cons in Hafter as [_ Hafter].
  apply StronglySorted_cons in Hafter as [Hafter _].
  rewrite Forall_forall in Hafter.
  rewrite elem_of_app, !elem_of_cons in Hin'.
  destruct Hin' as [Hin'|[?|[?|Hin']]]; [|lia|lia|].
  - specialize (Hbefore _ s Hin' ltac:(left)). lia.
  - specialize (Hafter _ Hin'). lia.
Qed.

(** Every slide has a child, and no child of a slide is a rule. *)
Lemma slideGroups_inhabited (content : list A) (g : list A) :
  g ∈ slideGroups tagOf content →
  g ≠ [] ∧ Forall (λ el, tagOf el ≠ "HR") g.
Proof.
  intros Hg. apply elem_of_slideLoop in Hg as (l1 & s & e & l2 & Hbp & Hk & ->).
  split; [|apply Forall_forall; by intros x [? _]%list_elem_of_filter].
  destruct (slice s e content) as [|el rest] eqn:Hsl; [done|].
  unfold slideChildren.
  destruct (decide (tagOf el = "HR")) as [Hhr|Hhr].
  - rewrite (kept_starts_with_content _ _ _ _ _ _ _ Hbp Hsl Hhr) in Hk.
    unfold keepSlide in Hk. simpl in Hk.
    by rewrite (bool_decide_eq_true_2 _ Hhr) in Hk.
  - by rewrite filter_cons_True.
Qed.

End SegmentationFacts.

(** *** [createSlides] on a state *)

Lemma omap_lookup_fresh {X Y : Type} (f : X → Y) (old new : list X) :
  omap (λ h, f <$> (old ++ new) !! h) (seq (length old) (length new))
  = f <$> new.
Proof.
  revert old. induction new as [|x new IH]; intros old; [done|].
  simpl. rewrite list_lookup_middle by done. simpl. f_equal.
  specialize (IH (old ++ [x])).
  rewrite <- app_assoc, length_app in IH. simpl in IH.
  by replace (length old + 1) with (S (length old)) in IH by lia.
Qed.

(** The children of the slides after [createSlides] are the groups that the
    loop of Part 1 computes from the content of [main]. *)
Lemma slideContents_createSlides (st : State) :
  slideContents (createSlides st) = slideGroups child_tagName (contentOf st).
Proof.
  unfold slideContents, createSlides. simpl.
  rewrite <- (length_fmap (mkSlideDiv ["slide"])).
  rewrite omap_lookup_fresh, <- list_fmap_compose.
  apply list_fmap_id.
Qed.

Lemma createSlides_heading_first (st : State) (el : Child) (rest : list Child) :
  contentOf st = el :: rest →
  child_tagName el = "H1" ∨ child_tagName el = "H2" →
  concat (slideContents (createSlides st))
  = filter (λ el, child_tagName el ≠ "HR") (contentOf st).
Proof.
  intros Hc Htag. rewrite slideContents_createSlides, concat_slideGroups, Hc.
  by rewrite firstBoundary_heading_first.
Qed.

Lemma length_slides_createSlides (st : State) :
  length (slides (createSlides st))
  = length (slideGroups child_tagName (contentOf st)).
Proof. unfold createSlides. simpl. apply length_seq. Qed.

Lemma findIndex_None (A : Type) (p : A → bool) (l : list A) :
  Forall (λ el, p el = false) l → findIndex p l = None.
Proof.
  induction 1 as [|x l Hx _ IH]; simpl; [done|]. by rewrite Hx, IH.
Qed.

Lemma forEachBreaks_no_boundary (A : Type) (tagOf : A → string)
    (n i : nat) (rest : list A) :
  Forall (λ el, tagOf el ≠ "H2" ∧ tagOf el ≠ "HR") rest →
  forEachBreaks tagOf n i rest = [].
Proof.
  intros H. revert i. induction H as [|x l [H2 Hr] _ IH]; intros i; simpl; [done|].
  rewrite (bool_decide_eq_false_2 _ H2), (bool_decide_eq_false_2 _ Hr). simpl.
  apply IH.
Qed.

(** C1, as stated, fails: on the content [P, H2, P] the paragraph before the
    first boundary is in no slide, so the slides do not give back the
    content. *)
Lemma createSlides_drops_leading_content :
  let st := initial [mkElement 0 "P" []; mkElement 1 "H2" [];
                     mkElement 2 "P" []] [] [] "" in
  NoDup (contentOf st) ∧
  concat (slideContents (createSlides st))
  ≠ filter (λ el, child_tagName el ≠ "HR") (contentOf st).
Proof. split; compute_done. Qed.

(** C1, amended: the slides, concatenated in order, are the content from the
    first boundary (the smallest break point) on, without its rules and in
    the original order; no node is in two slides or twice in one; the nodes
    before the first boundary are in no slide. *)
Theorem createSlides_covers_from_first_boundary (st : State) :
  NoDup (contentOf st) →
  concat (slideContents (createSlides st))
  = filter (λ el, child_tagName el ≠ "HR")
      (drop (firstBoundary child_tagName (contentOf st)) (contentOf st))
  ∧ NoDup (concat (slideContents (createSlides st)))
  ∧ ∀ el, el ∈ take (firstBoundary child_tagName (contentOf st)) (contentOf st) →
          el ∉ concat (slideContents (createSlides st)).
Proof.
  intros Hnd. rewrite slideContents_createSlides, concat_slideGroups.
  unfold slideChildren.
  set (content := contentOf st) in *.
  set (b := firstBoundary child_tagName content).
  rewrite <- (take_drop b content) in Hnd.
  apply NoDup_app in Hnd as (_ & Hdisj & Hdrop).
  split; [done|]. split.
  - by apply NoDup_filter.
  - intros el Hel [_ Hin]%list_elem_of_filter. by apply (Hdisj el).
Qed.

Lemma createSlides_covers_from_first_boundary_witness :
  let st := initial [mkElement 0 "P" []; mkElement 1 "H2" [];
                     mkElement 2 "P" []] [] [] "" in
  concat (slideContents (createSlides st))
  = [Page (mkElement 1 "H2" []); Page (mkElement 2 "P" [])].
Proof.
  intros st.
  destruct (createSlides_covers_from_first_boundary st) as [H _].
  - compute_done.
  - exact H.
Defined.

(** C2, as stated, fails: a page with one paragraph and no heading or rule
    gives no slide at all. *)
Lemma createSlides_no_boundary_no_slide :
  let st := initial [mkElement 0 "P" []] [] [] "" in
  Forall (λ el, child_tagName el ≠ "H1" ∧ child_tagName el ≠ "H2"
                ∧ child_tagName el ≠ "HR") (contentOf st)
  ∧ length (slides (createSlides st)) ≠ 1
  ∧ slideContents (createSlides st) ≠ [contentOf st].
Proof. repeat split; compute_done. Qed.

(** C2, amended: when the content has no h1, no h2 and no hr, the only
    break point is the end marker and [createSlides] produces no slide. *)
Theorem createSlides_without_boundaries (st : State) :
  Forall (λ el, child_tagName el ≠ "H1" ∧ child_tagName el ≠ "H2"
                ∧ child_tagName el ≠ "HR") (contentOf st) →
  slideBreakPoints child_tagName (contentOf st) = [length (contentOf st)]
  ∧ slides (createSlides st) = []
  ∧ slideContents (createSlides st) = [].
Proof.
  intros Hno.
  assert (slideBreakPoints child_tagName (contentOf st)
          = [length (contentOf st)]) as Hbp.
  { unfold slideBreakPoints.
    rewrite findIndex_None, forEachBreaks_no_boundary; [done| |].
    - eapply Forall_impl; [exact Hno|]. simpl. tauto.
    - eapply Forall_impl; [exact Hno|]. simpl. intros el (H1 & _ & _).
      by apply bool_decide_eq_false_2. }
  assert (slideGroups child_tagName (contentOf st) = []) as Hg
    by (unfold slideGroups; by rewrite Hbp).
  split; [done|]. split.
  - unfold createSlides. simpl. by rewrite Hg.
  - by rewrite slideContents_createSlides.
Qed.

Lemma createSlides_without_boundaries_witness :
  slides (createSlides (initial [mkElement 0 "P" []; mkElement 1 "UL" []]
                          [] [] "")) = [].
Proof.
  apply (createSlides_without_boundaries
           (initial [mkElement 0 "P" []; mkElement 1 "UL" []] [] [] "")).
  compute_done.
Defined.

(** C6: on a content [H1, P, H2, P, HR, P, H2, P] the break points are
    [0, 2, 5, 6] and the end marker 8, and there are exactly four slides,
    holding [H1, P], [H2, P], [P] and [H2, P] in this order. *)
Theorem createSlides_scenario (st : State) (c0 c1 c2 c3 c4 c5 c6 c7 : Child) :
  contentOf st = [c0; c1; c2; c3; c4; c5; c6; c7] →
  child_tagName <$> contentOf st
  = ["H1"; "P"; "H2"; "P"; "HR"; "P"; "H2"; "P"] →
  slideBreakPoints child_tagName (contentOf st) = [0; 2; 5; 6; 8]
  ∧ slides_length (createSlides st) = 4%Z
  ∧ slideContents (createSlides st)
    = [[c0; c1]; [c2; c3]; [c5]; [c6; c7]].
Proof.
  intros Hc Htags. rewrite Hc in Htags.
  injection Htags as H0 H1 H2 H3 H4 H5 H6 H7.
  assert (slideBreakPoints child_tagName (contentOf st) = [0; 2; 5; 6; 8])
    as Hbp.
  { unfold slideBreakPoints. rewrite Hc. simpl.
    rewrite H0, H1, H2, H3, H4, H5, H6, H7. reflexivity. }
  assert (slideGroups child_tagName (contentOf st)
          = [[c0; c1]; [c2; c3]; [c5]; [c6; c7]]) as Hg.
  { unfold slideGroups. rewrite Hbp, Hc.
    unfold slideLoop, slice, keepSlide, slideChildren. simpl.
    rewrite ?H0, ?H1, ?H2, ?H3, ?H4, ?H5, ?H6, ?H7. simpl.
    rewrite !filter_cons, !filter_nil.
    rewrite ?H0, ?H1, ?H2, ?H3, ?H4, ?H5, ?H6, ?H7. reflexivity. }
  split; [done|]. split.
  - unfold slides_length. by rewrite length_slides_createSlides, Hg.
  - by rewrite slideContents_createSlides.
Qed.

Lemma createSlides_scenario_witness :
  slideContents
    (createSlides
       (initial [mkElement 0 "H1" []; mkElement 1 "P" []; mkElement 2 "H2" [];
                 mkElement 3 "P" []; mkElement 4 "HR" []; mkElement 5 "P" [];
                 mkElement 6 "H2" []; mkElement 7 "P" []] [] [] ""))
  = [[Page (mkElement 0 "H1" []); Page (mkElement 1 "P" [])];
     [Page (mkElement 2 "H2" []); Page (mkElement 3 "P" [])];
     [Page (mkElement 5 "P" [])];
     [Page (mkElement 6 "H2" []); Page (mkElement 7 "P" [])]].
Proof.
  eapply (createSlides_scenario
            (initial [mkElement 0 "H1" []; mkElement 1 "P" [];
                      mkElement 2 "H2" []; mkElement 3 "P" [];
                      mkElement 4 "HR" []; mkElement 5 "P" [];
                      mkElement 6 "H2" []; mkElement 7 "P" []] [] [] ""));
    reflexivity.
Defined.

(** C9: every slide that [createSlides] produces has at least one child and
    none of its children is a rule, so no slide is empty and none consists
    of a rule; a candidate made of rules only has at most one node and is
    skipped. *)
Theorem createSlides_slides_inhabited (st : State) :
  Forall (λ g, g ≠ [] ∧ Forall (λ el, child_tagName el ≠ "HR") g)
         (slideContents (createSlides st))
  ∧ ∀ l1 s e l2,
      slideBreakPoints child_tagName (contentOf st) = l1 ++ s :: e :: l2 →
      Forall (λ el, child_tagName el = "HR") (slice s e (contentOf st)) →
      length (slice s e (contentOf st)) ≤ 1
      ∧ keepSlide child_tagName (slice s e (contentOf st)) = false.
Proof.
  split.
  - rewrite slideContents_createSlides. apply Forall_forall.
    intros g Hg. exact (slideGroups_inhabited _ _ _ Hg).
  - intros l1 s e l2 Hbp Hall.
    destruct (slice s e (contentOf st)) as [|el rest] eqn:Hsl; [by split; [simpl; lia|]|].
    apply Forall_cons_1 in Hall as [Hhr _].
    rewrite (kept_starts_with_content _ _ _ _ _ _ _ _ Hbp Hsl Hhr).
    split; [simpl; lia|]. unfold keepSlide. simpl.
    by rewrite (bool_decide_eq_true_2 _ Hhr).
Qed.

(** *** Class lists *)

Lemma classList_remove_not_elem (c : string) (cl : list string) :
  c ∉ classList_remove c cl.
Proof. unfold classList_remove. rewrite list_elem_of_filter. tauto. Qed.

Lemma classList_remove_id (c : string) (cl : list string) :
  c ∉ cl → classList_remove c cl = cl.
Proof.
  unfold classList_remove. induction cl as [|x cl IH]; intros Hc; [done|].
  rewrite not_elem_of_cons in Hc. destruct Hc as [Hne Hc].
  rewrite filter_cons_True by done. by rewrite IH.
Qed.

Lemma classList_add_elem (c : string) (cl : list string) :
  c ∈ classList_add c cl.
Proof.
  unfold classList_add. case_bool_decide; [done|].
  apply elem_of_app. right. by apply list_elem_of_singleton.
Qed.

Lemma classList_add_id (c : string) (cl : list string) :
  c ∈ cl → classList_add c cl = cl.
Proof. intros H. unfold classList_add. by rewrite bool_decide_eq_true_2. Qed.

Lemma classList_remove_add (c : string) (cl : list string) :
  c ∉ cl → classList_remove c (classList_add c cl) = cl.
Proof.
  intros Hc. unfold classList_add. rewrite bool_decide_eq_false_2 by done.
  unfold classList_remove. rewrite filter_app.
  fold (classList_remove c cl). rewrite classList_remove_id by done.
  rewrite filter_cons_False, filter_nil by (intros H; by apply H).
  apply app_nil_r.
Qed.

Lemma classList_toggle_idemp (c : string) (force : bool) (cl : list string) :
  classList_toggle c force (classList_toggle c force cl)
  = classList_toggle c force cl.
Proof.
  destruct force; simpl.
  - apply classList_add_id, classList_add_elem.
  - apply classList_remove_id, classList_remove_not_elem.
Qed.

Lemma classList_contains_toggle (c : string) (force : bool) (cl : list string) :
  classList_contains c (classList_toggle c force cl) = force.
Proof.
  unfold classList_contains. destruct force; simpl.
  - apply bool_decide_eq_true_2, classList_add_elem.
  - apply bool_decide_eq_false_2, classList_remove_not_elem.
Qed.

(** Hiding and then showing again a slide that was hidden and then shown
    changes nothing. *)
Lemma classList_show_idemp (c : string) (cl : list string) :
  classList_add c (classList_remove c (classList_add c (classList_remove c cl)))
  = classList_add c (classList_remove c cl).
Proof.
  rewrite (classList_remove_add c (classList_remove c cl)); [done|].
  apply classList_remove_not_elem.
Qed.

(** *** Updates of the stores *)

Lemma alter_idemp {X : Type} (f : X → X) (i : nat) (l : list X) :
  (∀ x, f (f x) = f x) → alter f i (alter f i l) = alter f i l.
Proof.
  intros Hf. rewrite list_alter_alter_eq.
  apply list_alter_ext; [|done]. intros x _. apply Hf.
Qed.

Lemma foldl_alter_length {X : Type} (f : X → X) (hs : list nat) (els : list X) :
  length (foldl (λ els h, alter f h els) els hs) = length els.
Proof.
  revert els. induction hs as [|a hs IH]; intros els; simpl; [done|].
  by rewrite IH, length_alter.
Qed.

(** An idempotent update applied at every reference of a list is applied
    once to the referenced cells and leaves the others alone. *)
Lemma foldl_alter_lookup {X : Type} (f : X → X) (hs : list nat) (els : list X)
    (h : nat) :
  (∀ x, f (f x) = f x) →
  foldl (λ els h, alter f h els) els hs !! h
  = if decide (h ∈ hs) then f <$> els !! h else els !! h.
Proof.
  intros Hf. revert els. induction hs as [|a hs IH]; intros els.
  - case_decide as Hin; [|done]. by apply elem_of_nil in Hin.
  - change (foldl (λ els h, alter f h els) els (a :: hs))
      with (foldl (λ els h, alter f h els) (alter f a els) hs).
    rewrite IH. destruct (decide (a = h)) as [->|Hne].
    + rewrite list_lookup_alter_eq.
      destruct (decide (h ∈ h :: hs)) as [_|Hn];
        [|exfalso; apply Hn, list_elem_of_here].
      destruct (els !! h) as [x|]; simpl; [|by case_decide].
      case_decide; simpl; by rewrite ?Hf.
    + rewrite list_lookup_alter_ne by done.
      destruct (decide (h ∈ hs)) as [Hin|Hnin];
        destruct (decide (h ∈ a :: hs)) as [Hin'|Hnin']; try done.
      * exfalso. apply Hnin'. by apply list_elem_of_further.
      * apply elem_of_cons in Hin' as [->|?]; done.
Qed.

(** *** [showSlide] *)

Lemma showSlide_valid (index : Z) (st : State) :
  (0 ≤ index < slides_length st)%Z →
  showSlide index st
  = set_location_hash ("slide-" +:+ Number_toString (index + 1))
      (mkState index (slides st) (slideNav st) (slideDots st)
         (showSlide_slideEls index st) (showSlide_navEls index st)
         (showSlide_dotsEls index st)
         (main_children st) (body_classList st) (modeBtns st)
         (location_fragment st)).
Proof.
  intros H. unfold showSlide.
  rewrite (bool_decide_eq_false_2 (index < 0)%Z) by lia.
  by rewrite (bool_decide_eq_false_2 (index >= slides_length st)%Z) by lia.
Qed.

Lemma showSlide_invalid (index : Z) (st : State) :
  (index < 0 ∨ slides_length st ≤ index)%Z → showSlide index st = st.
Proof.
  intros H. unfold showSlide.
  destruct (decide (index < 0)%Z).
  - by rewrite (bool_decide_eq_true_2 (index < 0)%Z).
  - rewrite (bool_decide_eq_true_2 (index >= slides_length st)%Z) by lia.
    by rewrite orb_true_r.
Qed.

(** The fields that [showSlide] never changes. *)
Lemma showSlide_frame (index : Z) (st : State) :
  slides (showSlide index st) = slides st
  ∧ slideNav (showSlide index st) = slideNav st
  ∧ slideDots (showSlide index st) = slideDots st
  ∧ main_children (showSlide index st) = main_children st
  ∧ body_classList (showSlide index st) = body_classList st
  ∧ modeBtns (showSlide index st) = modeBtns st
  ∧ length (slideEls (showSlide index st)) = length (slideEls st)
  ∧ length (navEls (showSlide index st)) = length (navEls st)
  ∧ length (dotsEls (showSlide index st)) = length (dotsEls st).
Proof.
  unfold showSlide. destruct (_ || _); [done|]. simpl.
  repeat split.
  - unfold showSlide_slideEls.
    destruct (slides st !! Z.to_nat index);
      by rewrite ?length_alter, foldl_alter_length.
  - unfold showSlide_navEls. destruct (slideNav st); by rewrite ?length_alter.
  - unfold showSlide_dotsEls. destruct (slideDots st); by rewrite ?length_alter.
Qed.

Lemma slides_length_showSlide (index : Z) (st : State) :
  slides_length (showSlide index st) = slides_length st.
Proof.
  unfold slides_length. by destruct (showSlide_frame index st) as [-> _].
Qed.

Lemma slide_setClasses_remove_idemp (s : SlideDiv) :
  slide_setClasses (classList_remove "active")
    (slide_setClasses (classList_remove "active") s)
  = slide_setClasses (classList_remove "active") s.
Proof.
  unfold slide_setClasses. simpl. f_equal.
  apply classList_remove_id, classList_remove_not_elem.
Qed.

(** The slide store after the two statements, cell by cell. *)
Lemma showSlide_slideEls_lookup (index : Z) (st : State) (hi h : nat) :
  slides st !! Z.to_nat index = Some hi →
  showSlide_slideEls index st !! h
  = (if decide (hi = h)
     then fmap (slide_setClasses (classList_add "active")) else id)
      ((if decide (h ∈ slides st)
        then fmap (slide_setClasses (classList_remove "active")) else id)
         (slideEls st !! h)).
Proof.
  intros Hi. unfold showSlide_slideEls. rewrite Hi.
  destruct (decide (hi = h)) as [->|Hne].
  - rewrite list_lookup_alter_eq, foldl_alter_lookup
      by apply slide_setClasses_remove_idemp.
    by case_decide.
  - rewrite list_lookup_alter_ne by done.
    rewrite foldl_alter_lookup by apply slide_setClasses_remove_idemp.
    by case_decide.
Qed.

Lemma showSlide_slideEls_idemp (index : Z) (st : State) (st' : State) :
  (0 ≤ index < slides_length st)%Z →
  slides st' = slides st →
  slideEls st' = showSlide_slideEls index st →
  showSlide_slideEls index st' = showSlide_slideEls index st.
Proof.
  intros Hi Hs Hels.
  destruct (lookup_lt_is_Some_2 (slides st) (Z.to_nat index)) as [hi Hhi].
  { unfold slides_length in Hi. lia. }
  apply list_eq. intros h.
  rewrite (showSlide_slideEls_lookup index st' hi h) by (by rewrite Hs).
  rewrite Hels, Hs, (showSlide_slideEls_lookup index st hi h) by done.
  destruct (slideEls st !! h) as [s|];
    repeat case_decide; simpl; try done; f_equal;
    unfold slide_setClasses; simpl; f_equal.
  - apply classList_show_idemp.
  - apply classList_add_id, classList_add_elem.
  - apply classList_remove_id, classList_remove_not_elem.
Qed.

Lemma showSlide_navEls_idemp (index : Z) (st st' : State) :
  slides_length st' = slides_length st →
  slideNav st' = slideNav st →
  navEls st' = showSlide_navEls index st →
  showSlide_navEls index st' = showSlide_navEls index st.
Proof.
  intros Hl Hn Hels. unfold showSlide_navEls at 1. rewrite Hn, Hels, Hl.
  unfold showSlide_navEls. destruct (slideNav st); [|done].
  by apply alter_idemp.
Qed.

Lemma showSlide_dotsEls_idemp (index : Z) (st st' : State) :
  slideDots st' = slideDots st →
  dotsEls st' = showSlide_dotsEls index st →
  showSlide_dotsEls index st' = showSlide_dotsEls index st.
Proof.
  intros Hd Hels. unfold showSlide_dotsEls at 1. rewrite Hd, Hels.
  unfold showSlide_dotsEls. destruct (slideDots st); [|done].
  apply alter_idemp. intros ds. apply list_eq. intros i.
  rewrite !list_lookup_imap. destruct (ds !! i) as [d|]; simpl; [|done].
  unfold dot_setClasses. simpl. by rewrite classList_toggle_idemp.
Qed.

(** Showing a slide that is already shown leaves the state as it is. *)
Lemma showSlide_idemp (index : Z) (st : State) :
  showSlide index (showSlide index st) = showSlide index st.
Proof.
  destruct (decide (0 ≤ index < slides_length st)%Z) as [Hi|Hi].
  - rewrite (showSlide_valid index (showSlide index st))
      by (by rewrite slides_length_showSlide).
    rewrite (showSlide_slideEls_idemp index st),
            (showSlide_navEls_idemp index st),
            (showSlide_dotsEls_idemp index st);
      rewrite ?slides_length_showSlide; rewrite ?(showSlide_valid index st Hi);
      try done.
  - rewrite !(showSlide_invalid index st) by lia. done.
Qed.

Lemma filter_seq_unique (P : nat → Prop) `{∀ k, Decision (P k)} (n i : nat) :
  (∀ k, k < n → P k ↔ k = i) →
  filter P (seq 0 n) = if decide (i < n) then [i] else [].
Proof.
  induction n as [|n IH]; intros HP; [done|].
  rewrite seq_S, filter_app, IH by (intros k Hk; apply HP; lia). simpl.
  rewrite filter_cons, filter_nil.
  destruct (decide (i = n)) as [->|Hne].
  - rewrite (decide_True (P := P n)) by (apply HP; [lia|done]).
    rewrite (decide_False (P := n < n)) by lia.
    by rewrite (decide_True (P := n < S n)) by lia.
  - rewrite (decide_False (P := P n)) by (rewrite HP; [done|lia]).
    repeat case_decide; try lia; by rewrite ?app_nil_r.
Qed.

Lemma showSlide_fragment (index : Z) (st : State) :
  (0 ≤ index < slides_length st)%Z →
  location_fragment (showSlide index st)
  = "slide-" +:+ Number_toString (index + 1)
  ∧ location_hash (showSlide index st)
    = "#slide-" +:+ Number_toString (index + 1).
Proof.
  intros Hi. unfold location_hash. by rewrite showSlide_valid.
Qed.

(** What a state shows after [showSlide] with a valid index. *)
Lemma showSlide_shown (index : Z) (st : State) :
  wf st → (0 ≤ index < slides_length st)%Z →
  currentSlide (showSlide index st) = index
  ∧ activeSlides (showSlide index st) = [Z.to_nat index]
  ∧ counterText (showSlide index st)
    = Some (Number_toString (index + 1) +:+ " of " +:+
            Number_toString (slides_length st))
  ∧ length (currentDots (showSlide index st))
    = Nat.min (length (slides st)) 10
  ∧ activeDots (showSlide index st)
    = (if decide (Z.to_nat index < 10) then [Z.to_nat index] else [])
  ∧ location_hash (showSlide index st)
    = "#slide-" +:+ Number_toString (index + 1).
Proof.
  intros (Hnd & Hall & Hnav) Hi.
  assert (Z.to_nat index < length (slides st)) as Hlt
    by (unfold slides_length in Hi; lia).
  assert (slides st ≠ []) as Hne by (intros Heq; rewrite Heq in Hlt; simpl in Hlt; lia).
  destruct (Hnav Hne) as [(hn & Hn & Hnlt) (hd & ds & Hd & Hds & Hlen)].
  destruct (lookup_lt_is_Some_2 _ _ Hlt) as [hi Hhi].
  split; [by rewrite showSlide_valid|]. split; [|split; [|split; [|split]]].
  - unfold activeSlides. destruct (showSlide_frame index st) as [-> _].
    rewrite (filter_seq_unique _ _ (Z.to_nat index)).
    { by rewrite decide_True. }
    intros k Hk. unfold slideIsActive, slideAt.
    destruct (showSlide_frame index st) as [-> _].
    destruct (lookup_lt_is_Some_2 _ _ Hk) as [hk Hhk]. rewrite Hhk. simpl.
    rewrite showSlide_valid by done. simpl.
    rewrite (showSlide_slideEls_lookup index st hi hk Hhi).
    rewrite Forall_forall in Hall.
    destruct (lookup_lt_is_Some_2 (slideEls st) hk) as [s Hs].
    { apply Hall. by eapply list_elem_of_lookup_2. }
    rewrite Hs.
    rewrite (decide_True (P := hk ∈ slides st))
      by (by eapply list_elem_of_lookup_2).
    unfold classList_contains.
    destruct (decide (hi = hk)) as [->|Hdiff]; simpl.
    + rewrite bool_decide_eq_true_2 by apply classList_add_elem.
      split; [|done]. intros _. by eapply NoDup_lookup.
    + rewrite bool_decide_eq_false_2 by apply classList_remove_not_elem.
      split; [done|]. intros ->. congruence.
  - unfold counterText. rewrite showSlide_valid by done. simpl.
    unfold showSlide_navEls. rewrite Hn. simpl.
    rewrite list_lookup_alter_eq.
    destruct (lookup_lt_is_Some_2 _ _ Hnlt) as [nav ->]. done.
  - unfold currentDots. rewrite showSlide_valid by done. simpl.
    unfold showSlide_dotsEls. rewrite Hd. simpl.
    rewrite list_lookup_alter_eq, Hds. simpl. by rewrite length_imap.
  - unfold activeDots, currentDots. rewrite showSlide_valid by done. simpl.
    unfold showSlide_dotsEls. rewrite Hd. simpl.
    rewrite list_lookup_alter_eq, Hds. simpl. rewrite length_imap.
    rewrite (filter_seq_unique _ _ (Z.to_nat index)).
    { rewrite Hlen. repeat case_decide; try done; lia. }
    intros k Hk. rewrite list_lookup_imap.
    destruct (lookup_lt_is_Some_2 _ _ Hk) as [d ->]. simpl.
    rewrite classList_contains_toggle.
    rewrite bool_decide_eq_true. lia.
  - by apply showSlide_fragment.
Qed.

(** *** The invariant *)

Lemma wf_showSlide (index : Z) (st : State) : wf st → wf (showSlide index st).
Proof.
  intros (Hnd & Hall & Hnav).
  destruct (decide (0 ≤ index < slides_length st)%Z) as [Hi|Hi];
    [|by rewrite showSlide_invalid by lia].
  destruct (showSlide_frame index st)
    as (Hs & Hn & Hd & _ & _ & _ & Hle & Hln & Hld).
  unfold wf. rewrite Hs, Hn, Hle, Hln. split; [done|]. split; [done|].
  intros Hne. destruct (Hnav Hne) as [Hnv (hd & ds & Hsd & Hds & Hlen)].
  split; [done|].
  rewrite Hd, showSlide_valid by done. simpl.
  unfold showSlide_dotsEls. rewrite Hsd.
  eexists hd, _. split; [done|].
  rewrite list_lookup_alter_eq, Hds. simpl. split; [done|].
  by rewrite length_imap.
Qed.

Lemma wf_set_location_hash (v : string) (st : State) :
  wf st → wf (set_location_hash v st).
Proof. done. Qed.

Lemma wf_set_modeBtns (btns : list ModeBtn) (st : State) :
  wf st → wf (set_modeBtns btns st).
Proof. done. Qed.

Lemma wf_set_body_classList (cl : list string) (st : State) :
  wf st → wf (set_body_classList cl st).
Proof. done. Qed.

Lemma wf_build (st : State) : wf (createNavigation (createSlides st)).
Proof.
  unfold wf, createNavigation, createSlides. simpl.
  split; [apply NoDup_seq|]. split.
  - apply Forall_seq. intros j Hj. rewrite length_app, length_fmap. lia.
  - intros _. split.
    + eexists. split; [done|]. rewrite length_app. simpl. lia.
    + eexists _, _. split; [done|]. split.
      * by apply list_lookup_middle.
      * by rewrite length_fmap, !length_seq.
Qed.

Lemma wf_enterSlides (k : nat) (st : State) : wf st → wf (enterSlides k st).
Proof.
  intros Hwf. unfold enterSlides. case_bool_decide; [apply wf_build|done].
Qed.

Lemma wf_modeBtn_click (k : nat) (st : State) : wf st → wf (modeBtn_click k st).
Proof.
  intros Hwf. unfold modeBtn_click. destruct (modeBtns st !! k); [|done].
  case_bool_decide; [|done].
  unfold resolveInitialSlide.
  destruct (slideMatch _); by apply wf_showSlide, wf_enterSlides.
Qed.

Lemma wf_clickDocsBtns (btns : list ModeBtn) (k : nat) (st : State) :
  wf st → wf (clickDocsBtns k btns st).
Proof.
  revert k st. induction btns as [|btn btns IH]; intros k st Hwf; [done|].
  simpl. apply IH. case_bool_decide; [by apply wf_modeBtn_click|done].
Qed.

Lemma wf_nextSlide (st : State) : wf st → wf (nextSlide st).
Proof. intros ?. unfold nextSlide. case_bool_decide; [by apply wf_showSlide|done]. Qed.

Lemma wf_prevSlide (st : State) : wf st → wf (prevSlide st).
Proof. intros ?. unfold prevSlide. case_bool_decide; [by apply wf_showSlide|done]. Qed.

Lemma wf_handle (ev : Event) (st : State) : wf st → wf (handle ev st).
Proof.
  intros Hwf. destruct ev as [k| | |h i|key| |fragment]; simpl.
  - by apply wf_modeBtn_click.
  - case_bool_decide; [done|by apply wf_prevSlide].
  - case_bool_decide; [done|by apply wf_nextSlide].
  - destruct (_ ≫= _); [by apply wf_showSlide|done].
  - unfold keydown, goToSlide.
    repeat (case_match; try done);
      auto using wf_prevSlide, wf_nextSlide, wf_showSlide, wf_clickDocsBtns.
  - unfold hashchange. repeat (case_match; try done). by apply wf_showSlide.
  - by apply wf_set_location_hash.
Qed.

Lemma reachable_wf (st : State) : reachable st → wf st.
Proof.
  induction 1 as [page bodyClasses btns fragment|ev st _ IH].
  - unfold wf. simpl. split; [constructor|]. split; [constructor|done].
  - by apply wf_handle.
Qed.

(** *** The pattern [/slide-(\d+)/] *)






(** *** Navigation *)

(** C5: [showSlide] with an index outside [0, N) returns the state as it
    is: the current slide, the active slide, the counter, the dots and the
    fragment are unchanged. *)
Theorem showSlide_out_of_range (index : Z) (st : State) :
  (index < 0 ∨ slides_length st ≤ index)%Z →
  showSlide index st = st
  ∧ currentSlide (showSlide index st) = currentSlide st
  ∧ activeSlides (showSlide index st) = activeSlides st
  ∧ counterText (showSlide index st) = counterText st
  ∧ currentDots (showSlide index st) = currentDots st
  ∧ location_hash (showSlide index st) = location_hash st.
Proof. intros H. by rewrite (showSlide_invalid index st H). Qed.

(** C7: [nextSlide] on the last slide and [prevSlide] on the first slide
    return the state as it is. *)
Theorem nextSlide_prevSlide_at_ends (st : State) :
  (currentSlide st = (slides_length st - 1)%Z → nextSlide st = st)
  ∧ (currentSlide st = 0%Z → prevSlide st = st).
Proof.
  split; intros H.
  - unfold nextSlide. by rewrite bool_decide_eq_false_2 by lia.
  - unfold prevSlide. by rewrite bool_decide_eq_false_2 by lia.
Qed.

(** C8: in a state the page can reach, [showSlide(i)] with [0 <= i < N]
    twice is [showSlide(i)] once, and after it slide [i] is the one active
    slide, the counter reads "i+1 of N", dot [i] is the one active dot (no
    dot when [i] is beyond the ten dots), and the fragment is slide-(i+1). *)
Theorem showSlide_idempotent (index : Z) (st : State) :
  reachable st → (0 ≤ index < slides_length st)%Z →
  showSlide index (showSlide index st) = showSlide index st
  ∧ currentSlide (showSlide index st) = index
  ∧ activeSlides (showSlide index st) = [Z.to_nat index]
  ∧ counterText (showSlide index st)
    = Some (Number_toString (index + 1) +:+ " of " +:+
            Number_toString (slides_length st))
  ∧ length (currentDots (showSlide index st))
    = Nat.min (length (slides st)) 10
  ∧ activeDots (showSlide index st)
    = (if decide (Z.to_nat index < 10) then [Z.to_nat index] else [])
  ∧ location_hash (showSlide index st)
    = "#slide-" +:+ Number_toString (index + 1).
Proof.
  intros Hr Hi. split; [apply showSlide_idemp|].
  by apply showSlide_shown; [apply reachable_wf|].
Qed.

(** *** Entering presentation mode *)

Lemma location_hash_enterSlides (k : nat) (st : State) :
  location_hash (enterSlides k st) = location_hash st.
Proof. unfold enterSlides. by case_bool_decide. Qed.

Lemma modeBtn_click_slides (k : nat) (this : ModeBtn) (st : State) :
  modeBtns st !! k = Some this → btn_dataset_mode this = "slides" →
  modeBtn_click k st = resolveInitialSlide (enterSlides k st).
Proof.
  intros Hk Hm. unfold modeBtn_click. rewrite Hk.
  by rewrite bool_decide_eq_true_2.
Qed.

(** C3, as stated, fails: with four slides and the fragment slide-9, entry
    into presentation mode does not show slide 0; no slide is shown and the
    fragment stays. *)
Lemma entry_out_of_range_shows_nothing :
  let st := initial [mkElement 0 "H1" []; mkElement 1 "P" []; mkElement 2 "H2" [];
                     mkElement 3 "P" []; mkElement 4 "HR" []; mkElement 5 "P" [];
                     mkElement 6 "H2" []; mkElement 7 "P" []]
                    [] [mkModeBtn "docs" ["mode-btn"; "active"];
                        mkModeBtn "slides" ["mode-btn"]] "slide-9" in
  slides_length (modeBtn_click 1 st) = 4%Z
  ∧ slideMatch (location_hash st) = Some "9"
  ∧ activeSlides (modeBtn_click 1 st) ≠ [0]
  ∧ activeSlides (modeBtn_click 1 st) = []
  ∧ location_hash (modeBtn_click 1 st) = "#slide-9".
Proof. repeat split; compute_done. Qed.

(** C3, amended: on every entry into presentation mode, after the slides
    are built, the first occurrence of slide-<digits> in the fragment is
    parsed.  If its number maps to a slide, that slide (number - 1) is
    shown.  If the fragment has no such occurrence, [showSlide(0)] runs,
    which shows slide 0 when there is a slide.  If the number maps to no
    slide, nothing is shown: the state stays as it was after the build. *)
Theorem entry_resolves_initial_slide (k : nat) (this : ModeBtn) (st : State) :
  reachable st →
  modeBtns st !! k = Some this → btn_dataset_mode this = "slides" →
  (∀ ds, slideMatch (location_hash st) = Some ds →
         (1 ≤ parseInt ds ≤ slides_length (enterSlides k st))%Z →
         modeBtn_click k st = showSlide (parseInt ds - 1) (enterSlides k st)
         ∧ currentSlide (modeBtn_click k st) = (parseInt ds - 1)%Z
         ∧ activeSlides (modeBtn_click k st) = [Z.to_nat (parseInt ds - 1)]
         ∧ location_hash (modeBtn_click k st)
           = "#slide-" +:+ Number_toString (parseInt ds))
  ∧ (∀ ds, slideMatch (location_hash st) = Some ds →
           ¬ (1 ≤ parseInt ds ≤ slides_length (enterSlides k st))%Z →
           modeBtn_click k st = enterSlides k st)
  ∧ (slideMatch (location_hash st) = None →
     modeBtn_click k st = showSlide 0 (enterSlides k st)
     ∧ ((0 < slides_length (enterSlides k st))%Z →
        currentSlide (modeBtn_click k st) = 0%Z
        ∧ activeSlides (modeBtn_click k st) = [0]
        ∧ location_hash (modeBtn_click k st) = "#slide-1")).
Proof.
  intros Hr Hk Hm.
  assert (wf (enterSlides k st)) as Hwf by apply wf_enterSlides, reachable_wf, Hr.
  rewrite (modeBtn_click_slides k this st Hk Hm).
  unfold resolveInitialSlide. rewrite location_hash_enterSlides.
  split; [|split].
  - intros ds -> Hin. split; [done|].
    destruct (showSlide_shown (parseInt ds - 1) (enterSlides k st) Hwf)
      as (Hc & Ha & _ & _ & _ & Hh); [lia|].
    rewrite Hc, Ha, Hh. repeat split. do 2 f_equal. lia.
  - intros ds -> Hout. apply showSlide_invalid. lia.
  - intros ->. split; [done|]. intros Hpos.
    destruct (showSlide_shown 0 (enterSlides k st) Hwf)
      as (Hc & Ha & _ & _ & _ & Hh); [lia|].
    by rewrite Hc, Ha, Hh.
Qed.

Lemma entry_resolves_initial_slide_witness :
  let st := initial [mkElement 0 "H1" []; mkElement 1 "P" []; mkElement 2 "H2" [];
                     mkElement 3 "P" []; mkElement 4 "HR" []; mkElement 5 "P" [];
                     mkElement 6 "H2" []; mkElement 7 "P" []]
                    [] [mkModeBtn "docs" ["mode-btn"; "active"];
                        mkModeBtn "slides" ["mode-btn"]] "slide-3" in
  activeSlides (modeBtn_click 1 st) = [2].
Proof.
  intros st.
  destruct (entry_resolves_initial_slide 1 (mkModeBtn "slides" ["mode-btn"]) st)
    as (Hin & _ & _).
  - apply reachable_initial.
  - reflexivity.
  - reflexivity.
  - destruct (Hin "3") as (_ & _ & Ha & _).
    + reflexivity.
    + split; compute_done.
    + exact Ha.
Defined.

(** Once there is a slide, entering presentation mode again builds
    nothing. *)
Lemma reentry_keeps_slides (k : nat) (st : State) :
  slides st ≠ [] →
  slides (enterSlides k st) = slides st
  ∧ slideEls (enterSlides k st) = slideEls st
  ∧ navEls (enterSlides k st) = navEls st
  ∧ dotsEls (enterSlides k st) = dotsEls st
  ∧ main_children (enterSlides k st) = main_children st.
Proof.
  intros Hne. unfold enterSlides.
  rewrite bool_decide_eq_false_2; [done|].
  unfold slides_length. simpl. destruct (slides st); [done|]. simpl. lia.
Qed.

(** While there is no slide, every entry runs [createSlides] and
    [createNavigation] again. *)
Lemma entry_without_slides_builds (k : nat) (st : State) :
  slides st = [] →
  enterSlides k st
  = createNavigation
      (createSlides
         (set_body_classList (classList_add "slides-mode" (body_classList st))
            (set_modeBtns
               (alter (btn_setClasses (classList_add "active")) k
                  (btn_setClasses (classList_remove "active") <$> modeBtns st))
               st)))
  ∧ length (navEls (enterSlides k st)) = S (length (navEls st)).
Proof.
  intros Hnil. unfold enterSlides.
  rewrite bool_decide_eq_true_2
    by (unfold slides_length; simpl; by rewrite Hnil).
  split; [done|]. simpl. rewrite length_app. simpl. lia.
Qed.

(** C4 fails on the code: on a page with one paragraph the first entry
    produces no slide, and the next entry runs the initialisation again:
    there are then two navigation bars and two dot bars in [main]. *)
Theorem reentry_rebuilds_navigation :
  let st0 := initial [mkElement 0 "P" []] []
               [mkModeBtn "docs" ["mode-btn"; "active"];
                mkModeBtn "slides" ["mode-btn"]] "" in
  let st1 := run [ModeClick 1] st0 in
  let st3 := run [ModeClick 1; ModeClick 0; ModeClick 1] st0 in
  slides st1 = []
  ∧ slideNav st1 = Some 0 ∧ length (navEls st1) = 1
  ∧ main_children st1 = [Page (mkElement 0 "P" []); NavRef 0; DotsRef 0]
  ∧ slides st3 = []
  ∧ slideNav st3 = Some 1 ∧ length (navEls st3) = 2
  ∧ main_children st3
    = [Page (mkElement 0 "P" []); NavRef 0; DotsRef 0; NavRef 1; DotsRef 1].
Proof. repeat split; compute_done. Qed.

(** *** Instances on a concrete page *)

Lemma showSlide_out_of_range_witness :
  let st := handle (ModeClick 1)
              (initial [mkElement 0 "H1" []; mkElement 1 "P" [];
                        mkElement 2 "H2" []; mkElement 3 "P" []]
                 [] [mkModeBtn "docs" ["mode-btn"; "active"];
                     mkModeBtn "slides" ["mode-btn"]] "") in
  (7 < 0 ∨ slides_length st ≤ 7)%Z ∧ showSlide 7 st = st.
Proof.
  intros st.
  assert (7 < 0 ∨ slides_length st ≤ 7)%Z as H by (right; compute_done).
  split; [exact H|].
  destruct (showSlide_out_of_range 7 st H) as [Heq _]. exact Heq.
Defined.

Lemma nextSlide_prevSlide_at_ends_witness :
  let st0 := initial [mkElement 0 "H1" []; mkElement 1 "P" [];
                      mkElement 2 "H2" []; mkElement 3 "P" []]
               [] [mkModeBtn "docs" ["mode-btn"; "active"];
                   mkModeBtn "slides" ["mode-btn"]] "" in
  let first := run [ModeClick 1] st0 in
  let last := run [ModeClick 1; KeyDown "End"] st0 in
  (currentSlide last = (slides_length last - 1)%Z ∧ nextSlide last = last)
  ∧ (currentSlide first = 0%Z ∧ prevSlide first = first).
Proof.
  intros st0 first last.
  assert (currentSlide last = (slides_length last - 1)%Z) as Hl by reflexivity.
  assert (currentSlide first = 0%Z) as Hf by reflexivity.
  split; (split; [done|]).
  - destruct (nextSlide_prevSlide_at_ends last) as [Hn _]. exact (Hn Hl).
  - destruct (nextSlide_prevSlide_at_ends first) as [_ Hp]. exact (Hp Hf).
Defined.

Lemma showSlide_idempotent_witness :
  let st := handle (ModeClick 1)
              (initial [mkElement 0 "H1" []; mkElement 1 "P" [];
                        mkElement 2 "H2" []; mkElement 3 "P" []]
                 [] [mkModeBtn "docs" ["mode-btn"; "active"];
                     mkModeBtn "slides" ["mode-btn"]] "") in
  (0 ≤ 1 < slides_length st)%Z
  ∧ showSlide 1 (showSlide 1 st) = showSlide 1 st
  ∧ activeSlides (showSlide 1 st) = [1]
  ∧ counterText (showSlide 1 st) = Some "2 of 2"
  ∧ activeDots (showSlide 1 st) = [1]
  ∧ location_hash (showSlide 1 st) = "#slide-2".
Proof.
  intros st.
  assert (0 ≤ 1 < slides_length st)%Z as Hi by (split; compute_done).
  split; [exact Hi|].
  destruct (showSlide_idempotent 1 st) as (H1 & _ & H2 & H3 & _ & H4 & H5).
  - apply reachable_step, reachable_initial.
  - exact Hi.
  - exact (conj H1 (conj H2 (conj H3 (conj H4 H5)))).
Defined.

Lemma createSlides_slides_inhabited_witness :
  let st := initial [mkElement 0 "H2" []; mkElement 1 "HR" [];
                     mkElement 2 "HR" []; mkElement 3 "HR" [];
                     mkElement 4 "P" []; mkElement 5 "HR" []] [] [] "" in
  slideBreakPoints child_tagName (contentOf st)
  = [0; 2] ++ 3 :: 4 :: [6]
  ∧ Forall (λ el, child_tagName el = "HR") (slice 3 4 (contentOf st))
  ∧ keepSlide child_tagName (slice 3 4 (contentOf st)) = false
  ∧ slideContents (createSlides st)
    = [[Page (mkElement 0 "H2" [])]; [Page (mkElement 4 "P" [])]].
Proof.
  intros st.
  assert (slideBreakPoints child_tagName (contentOf st)
          = [0; 2] ++ 3 :: 4 :: [6]) as Hbp by reflexivity.
  assert (Forall (λ el, child_tagName el = "HR") (slice 3 4 (contentOf st)))
    as Hall by (repeat constructor).
  split; [exact Hbp|]. split; [exact Hall|].
  destruct (createSlides_slides_inhabited st) as [_ Hc].
  destruct (Hc _ _ _ _ Hbp Hall) as [_ Hk].
  split; [exact Hk|reflexivity].
Defined.

(** *** The display agrees with the current slide *)

Lemma filter_seq_none (P : nat → Prop) `{∀ k, Decision (P k)} (n : nat) :
  (∀ k, k < n → ¬ P k) → filter P (seq 0 n) = [].
Proof.
  intros HP. rewrite (filter_seq_unique P n n).
  - by rewrite decide_False by lia.
  - intros k Hk. split; [by intros ?%HP|lia].
Qed.

Lemma showSlide_currentNav (index : Z) (st : State) (nav : SlideNav) :
  (0 ≤ index < slides_length st)%Z →
  currentNav (showSlide index st) = Some nav →
  nav = mkSlideNav
          (Number_toString (index + 1) +:+ " of " +:+
           Number_toString (slides_length st))
          (bool_decide (index = 0)%Z)
          (bool_decide (index = slides_length st - 1)%Z).
Proof.
  intros Hi. unfold currentNav. rewrite showSlide_valid by done. simpl.
  unfold showSlide_navEls. destruct (slideNav st) as [hn|]; [|done]. simpl.
  rewrite list_lookup_alter_eq. destruct (navEls st !! hn); [|done].
  by intros [= <-].
Qed.

Lemma showSlide_dot_dataset (index : Z) (st : State) (i : nat) (d : Dot) :
  (∀ i d, currentDots st !! i = Some d → dot_dataset_slide d = i) →
  currentDots (showSlide index st) !! i = Some d → dot_dataset_slide d = i.
Proof.
  intros Hst. destruct (decide (0 ≤ index < slides_length st)%Z) as [Hi|Hi];
    [|rewrite showSlide_invalid by lia; apply Hst].
  specialize (Hst i). revert Hst.
  unfold currentDots. rewrite showSlide_valid by done. simpl.
  unfold showSlide_dotsEls. destruct (slideDots st) as [hd|]; [|done]. simpl.
  rewrite list_lookup_alter_eq. destruct (dotsEls st !! hd) as [ds|]; [|done].
  simpl. rewrite list_lookup_imap. destruct (ds !! i) as [d0|]; [|done].
  simpl. intros Hst [= <-]. simpl. by apply Hst.
Qed.

Lemma consistent_showSlide (index : Z) (st : State) :
  wf st → consistent st → consistent (showSlide index st).
Proof.
  intros Hwf Hc.
  destruct (decide (0 ≤ index < slides_length st)%Z) as [Hi|Hi];
    [|by rewrite showSlide_invalid by lia].
  destruct (showSlide_shown index st Hwf Hi) as (Hcur & Hact & Hcnt & Hlen & Hdots & _).
  destruct (showSlide_frame index st) as (Hs & _).
  unfold consistent. rewrite slides_length_showSlide, Hs, Hcur, Hact, Hcnt, Hdots, Hlen.
  split; [lia|]. split.
  { intros Hnil. unfold slides_length in Hi. rewrite Hnil in Hi. simpl in Hi. lia. }
  split; [lia|]. split; [by intros text [= <-]|]. split; [by right|]. split.
  { case_decide; [by right|by left]. }
  split.
  { intros _ nav Hnav. by rewrite (showSlide_currentNav index st nav Hi Hnav). }
  split; [done|].
  intros i d. apply showSlide_dot_dataset. apply Hc.
Qed.

Lemma slideAt_build (st : State) (k : nat) (s : SlideDiv) :
  slideAt (createNavigation (createSlides st)) k = Some s →
  slide_classList s = ["slide"].
Proof.
  unfold slideAt, createNavigation, createSlides. simpl.
  destruct (seq _ _ !! k) as [h|] eqn:Hk; [|done]. simpl.
  apply lookup_seq in Hk as [-> Hk].
  rewrite lookup_app_r by lia.
  replace (length (slideEls st) + k - length (slideEls st)) with k by lia.
  rewrite list_lookup_fmap.
  destruct (_ !! k); [|done]. by intros [= <-].
Qed.

(** Right after the one-time initialisation nothing is marked yet, and the
    counter reads "1 of N". *)
Lemma consistent_build (st : State) :
  currentSlide st = 0%Z → consistent (createNavigation (createSlides st)).
Proof.
  intros Hcur.
  set (st' := createNavigation (createSlides st)).
  assert (currentSlide st' = 0%Z) as Hcur' by done.
  assert (activeSlides st' = []) as Hact.
  { unfold activeSlides. apply filter_seq_none. intros k _.
    unfold slideIsActive. destruct (slideAt st' k) as [s|] eqn:Hs; [|done].
    by rewrite (slideAt_build st k s Hs). }
  assert (currentDots st'
          = mkDot ["slide-dot"] <$> seq 0 (Nat.min (length (slides st')) 10))
    as Hdots.
  { unfold currentDots, st', createNavigation. simpl.
    by rewrite list_lookup_middle. }
  unfold consistent. rewrite Hcur', Hact, Hdots.
  split; [done|]. split; [done|]. split.
  { intros Hne. unfold slides_length. destruct (slides st'); [done|]. simpl. lia. }
  split.
  { unfold counterText, st', createNavigation. simpl.
    rewrite list_lookup_middle by done. by intros text [= <-]. }
  split; [by left|]. split.
  { left. unfold activeDots. rewrite Hdots. apply filter_seq_none. intros k _.
    rewrite list_lookup_fmap. by destruct (seq _ _ !! k). }
  split; [done|]. split; [by rewrite length_fmap, length_seq|].
  intros i d. rewrite list_lookup_fmap.
  destruct (seq _ _ !! i) as [j|] eqn:Hj; [|done].
  apply lookup_seq in Hj as [-> _]. by intros [= <-].
Qed.

Lemma consistent_enterSlides (k : nat) (st : State) :
  consistent st → consistent (enterSlides k st).
Proof.
  intros Hc. unfold enterSlides. case_bool_decide as Hz; [|done].
  apply consistent_build. simpl. apply Hc.
  unfold slides_length in Hz. simpl in Hz. destruct (slides st); [done|].
  simpl in Hz. lia.
Qed.

Lemma consistent_modeBtn_click (k : nat) (st : State) :
  wf st → consistent st → consistent (modeBtn_click k st).
Proof.
  intros Hwf Hc. unfold modeBtn_click. destruct (modeBtns st !! k); [|done].
  case_bool_decide; [|done].
  unfold resolveInitialSlide.
  destruct (slideMatch _);
    by apply consistent_showSlide; [apply wf_enterSlides|apply consistent_enterSlides].
Qed.

Lemma consistent_clickDocsBtns (btns : list ModeBtn) (k : nat) (st : State) :
  wf st → consistent st → consistent (clickDocsBtns k btns st).
Proof.
  revert k st. induction btns as [|btn btns IH]; intros k st Hwf Hc; [done|].
  simpl. case_bool_decide; [|by apply IH].
  apply IH; [by apply wf_modeBtn_click|by apply consistent_modeBtn_click].
Qed.

Lemma consistent_nextSlide (st : State) :
  wf st → consistent st → consistent (nextSlide st).
Proof.
  intros ??. unfold nextSlide.
  case_bool_decide; [by apply consistent_showSlide|done].
Qed.

Lemma consistent_prevSlide (st : State) :
  wf st → consistent st → consistent (prevSlide st).
Proof.
  intros ??. unfold prevSlide.
  case_bool_decide; [by apply consistent_showSlide|done].
Qed.

Lemma consistent_handle (ev : Event) (st : State) :
  wf st → consistent st → consistent (handle ev st).
Proof.
  intros Hwf Hc. destruct ev as [k| | |h i|key| |fragment]; simpl.
  - by apply consistent_modeBtn_click.
  - case_bool_decide; [done|by apply consistent_prevSlide].
  - case_bool_decide; [done|by apply consistent_nextSlide].
  - destruct (_ ≫= _); [by apply consistent_showSlide|done].
  - unfold keydown, goToSlide.
    repeat (case_match; try done);
      auto using consistent_prevSlide, consistent_nextSlide,
                 consistent_showSlide, consistent_clickDocsBtns.
  - unfold hashchange. repeat (case_match; try done).
    by apply consistent_showSlide.
  - done.
Qed.

Lemma reachable_consistent (st : State) : reachable st → consistent st.
Proof.
  induction 1 as [page bodyClasses btns fragment|ev st Hr IH].
  - unfold consistent. simpl. repeat split; try done; by left.
  - by apply consistent_handle; [apply reachable_wf|].
Qed.

(** *** The fragment written by [showSlide] reads back *)

Lemma parseDigits_of_uint_acc (u : Decimal.uint) (acc : positive) :
  parseDigits (Z.pos acc) (NilEmpty.string_of_uint u)
  = Z.pos (Pos.of_uint_acc u acc).
Proof.
  revert acc. induction u as [|u IH|u IH|u IH|u IH|u IH|u IH|u IH|u IH|u IH|u IH];
    intros acc; [done|..];
    cbn [NilEmpty.string_of_uint parseDigits Pos.of_uint_acc];
    rewrite <- IH; f_equal; unfold digitValue; simpl; lia.
Qed.

Lemma parseDigits_of_uint (u : Decimal.uint) :
  parseDigits 0 (NilEmpty.string_of_uint u) = Z.of_N (Pos.of_uint u).
Proof.
  induction u as [|u IH|u IH|u IH|u IH|u IH|u IH|u IH|u IH|u IH|u IH];
    [done|exact IH|..];
    cbn [NilEmpty.string_of_uint parseDigits Pos.of_uint Z.of_N];
    rewrite <- parseDigits_of_uint_acc; reflexivity.
Qed.

Lemma allDigits_string_of_uint (u : Decimal.uint) :
  allDigits (NilEmpty.string_of_uint u) = true.
Proof. induction u; simpl; done. Qed.

Lemma takeDigits_allDigits (s : string) :
  allDigits s = true → takeDigits s = s.
Proof.
  induction s as [|c s IH]; [done|]. simpl.
  intros [Hc Hs]%andb_true_iff. by rewrite Hc, IH.
Qed.

Lemma Number_toString_pos (p : positive) :
  Number_toString (Z.pos p) = NilEmpty.string_of_uint (Pos.to_uint p)
  ∧ Number_toString (Z.pos p) ≠ "".
Proof.
  unfold Number_toString. simpl.
  pose proof (DecimalPos.Unsigned.to_uint_nonnil p) as Hnn.
  destruct (Pos.to_uint p); done.
Qed.

(** Printing a positive number and parsing it back gives the number. *)
Lemma parseInt_Number_toString (n : Z) :
  (0 < n)%Z → parseInt (Number_toString n) = n.
Proof.
  intros Hn. destruct n as [|p|p]; [lia| |lia].
  destruct (Number_toString_pos p) as [-> _]. unfold parseInt.
  rewrite takeDigits_allDigits by apply allDigits_string_of_uint.
  by rewrite parseDigits_of_uint, DecimalPos.Unsigned.of_to.
Qed.

Lemma slideMatch_written (ds : string) :
  allDigits ds = true → ds ≠ "" → slideMatch ("#slide-" +:+ ds) = Some ds.
Proof.
  intros Hall Hne.
  change (slideMatch ("#slide-" +:+ ds))
    with (match matchHere ("slide-" +:+ ds) with
          | Some m => Some m
          | None => slideMatch ("lide-" +:+ ds)
          end).
  unfold matchHere. simpl. rewrite takeDigits_allDigits by done.
  by destruct ds.
Qed.

Lemma slideMatch_Number_toString (n : Z) :
  (0 < n)%Z →
  slideMatch ("#slide-" +:+ Number_toString n) = Some (Number_toString n).
Proof.
  intros Hn. destruct n as [|p|p]; [lia| |lia].
  apply slideMatch_written; [|apply Number_toString_pos].
  destruct (Number_toString_pos p) as [-> _]. apply allDigits_string_of_uint.
Qed.

(** *** [showSlide] changes classes only *)

Lemma omap_ext_pointwise {X Y : Type} (f g : X → option Y) (l : list X) :
  (∀ x, f x = g x) → omap f l = omap g l.
Proof.
  intros Hfg. induction l as [|x l IH]; [done|].
  csimpl. by rewrite Hfg, IH.
Qed.

Lemma foldl_alter_fmap {X Y : Type} (f : X → X) (g : X → Y) (hs : list nat)
    (els : list X) (h : nat) :
  (∀ x, g (f x) = g x) →
  g <$> foldl (λ els h, alter f h els) els hs !! h = g <$> els !! h.
Proof.
  intros Hgf. revert els. induction hs as [|a hs IH]; intros els; [done|].
  simpl. rewrite IH. destruct (decide (a = h)) as [->|Hne].
  - rewrite list_lookup_alter_eq. destruct (els !! h); simpl; [|done].
    by rewrite Hgf.
  - by rewrite list_lookup_alter_ne.
Qed.

Lemma showSlide_slideEls_children (index : Z) (st : State) (h : nat) :
  slide_children <$> showSlide_slideEls index st !! h
  = slide_children <$> slideEls st !! h.
Proof.
  unfold showSlide_slideEls.
  destruct (slides st !! Z.to_nat index) as [hi|].
  - destruct (decide (hi = h)) as [->|Hne].
    + rewrite list_lookup_alter_eq, <- option_fmap_compose.
      rewrite <- (foldl_alter_fmap
                   (slide_setClasses (classList_remove "active"))
                   slide_children (slides st) (slideEls st) h) by done.
      by destruct (foldl _ _ _ !! h).
    + rewrite list_lookup_alter_ne by done. by apply foldl_alter_fmap.
  - by apply foldl_alter_fmap.
Qed.

(** [showSlide] never changes which nodes a slide holds. *)
Lemma slideContents_showSlide (index : Z) (st : State) :
  slideContents (showSlide index st) = slideContents st.
Proof.
  destruct (decide (0 ≤ index < slides_length st)%Z) as [Hi|Hi];
    [|by rewrite showSlide_invalid by lia].
  unfold slideContents. rewrite showSlide_valid by done. simpl.
  apply omap_ext_pointwise. intros h. apply showSlide_slideEls_children.
Qed.

(** *** What every reachable state shows *)

Lemma reachable_sampleShown : reachable sampleShown.
Proof. apply reachable_step, reachable_initial. Qed.

(** X1: in every state the page can reach the current index is in range:
    it is never negative, it is 0 while there is no slide, and it is below
    the number of slides once there is one. *)
Theorem currentSlide_in_range (st : State) :
  reachable st →
  (0 ≤ currentSlide st)%Z
  ∧ (slides st = [] → currentSlide st = 0%Z)
  ∧ (slides st ≠ [] → (currentSlide st < slides_length st)%Z).
Proof.
  intros Hr. destruct (reachable_consistent st Hr) as (H0 & H1 & H2 & _).
  done.
Qed.

Lemma currentSlide_in_range_witness :
  let st := run [KeyDown "End"; KeyDown "ArrowRight"] sampleShown in
  reachable st ∧ currentSlide st = 3%Z ∧ (currentSlide st < slides_length st)%Z.
Proof.
  intros st.
  assert (reachable st) as Hr by (do 2 apply reachable_step; apply reachable_sampleShown).
  split; [exact Hr|]. split; [reflexivity|].
  destruct (currentSlide_in_range st Hr) as (_ & _ & Hlt).
  apply Hlt. discriminate.
Defined.

(** X2: in every reachable state at most one slide carries [active], and
    it is the current slide; the same holds for the dots of the current
    dot bar. *)
Theorem at_most_one_active (st : State) :
  reachable st →
  (activeSlides st = [] ∨ activeSlides st = [Z.to_nat (currentSlide st)])
  ∧ (activeDots st = [] ∨ activeDots st = [Z.to_nat (currentSlide st)]).
Proof.
  intros Hr.
  destruct (reachable_consistent st Hr) as (_ & _ & _ & _ & Hs & Hd & _).
  done.
Qed.

Lemma at_most_one_active_witness :
  let st := run [KeyDown "ArrowRight"; KeyDown "ArrowRight"] sampleShown in
  reachable st
  ∧ ((activeSlides st = [] ∨ activeSlides st = [Z.to_nat (currentSlide st)])
     ∧ (activeDots st = [] ∨ activeDots st = [Z.to_nat (currentSlide st)])).
Proof.
  intros st.
  assert (reachable st) as Hr by (do 2 apply reachable_step; apply reachable_sampleShown).
  split; [exact Hr|]. exact (at_most_one_active st Hr).
Defined.

(** X3: in every reachable state the counter of the current navigation bar
    reads "current+1 of N"; and while a slide is marked active, the
    previous button is disabled exactly on the first slide and the next
    button exactly on the last. *)
Theorem counter_reads_current (st : State) :
  reachable st →
  (∀ text, counterText st = Some text →
     text = Number_toString (currentSlide st + 1) +:+ " of " +:+
            Number_toString (slides_length st))
  ∧ (activeSlides st ≠ [] →
     ∀ nav, currentNav st = Some nav →
       prev_disabled nav = bool_decide (currentSlide st = 0)%Z
       ∧ next_disabled nav
         = bool_decide (currentSlide st = slides_length st - 1)%Z).
Proof.
  intros Hr.
  destruct (reachable_consistent st Hr) as (_ & _ & _ & Hc & _ & _ & Hb & _).
  done.
Qed.

Lemma counter_reads_current_witness :
  let st := run [KeyDown "End"] sampleShown in
  reachable st ∧ counterText st = Some "4 of 4"
  ∧ (prev_disabled <$> currentNav st) = Some false
  ∧ (next_disabled <$> currentNav st) = Some true.
Proof.
  intros st.
  assert (reachable st) as Hr by (apply reachable_step, reachable_sampleShown).
  split; [exact Hr|].
  destruct (counter_reads_current st Hr) as [Hc Hb].
  destruct (counterText st) as [text|] eqn:Ht; [|discriminate Ht].
  destruct (currentNav st) as [nav|] eqn:Hn; [|discriminate Hn].
  destruct (Hb ltac:(discriminate) nav eq_refl) as [Hp Hx].
  rewrite (Hc text eq_refl). simpl. rewrite Hp, Hx. repeat split.
Defined.

(** X4: in every reachable state the current dot bar has one dot for each of
    the first ten slides and no more, and dot [i] is labelled [i]. *)
Theorem dots_capped_and_labelled (st : State) :
  reachable st →
  length (currentDots st) = Nat.min (length (slides st)) 10
  ∧ ∀ i d, currentDots st !! i = Some d → dot_dataset_slide d = i.
Proof.
  intros Hr.
  destruct (reachable_consistent st Hr) as (_ & _ & _ & _ & _ & _ & _ & Hl & Hd).
  done.
Qed.

Lemma dots_capped_and_labelled_witness :
  let st := handle (ModeClick 0)
              (initial ((λ i, mkElement i "H2" []) <$> seq 0 15) []
                 [mkModeBtn "slides" []] "") in
  reachable st ∧ length (slides st) = 15 ∧ length (currentDots st) = 10.
Proof.
  intros st.
  assert (reachable st) as Hr by (apply reachable_step, reachable_initial).
  split; [exact Hr|]. split; [reflexivity|].
  destruct (dots_capped_and_labelled st Hr) as [Hl _]. exact Hl.
Defined.

(** X5: in every reachable state a click on dot [i] of the current dot bar
    shows slide [i]: a dot never points outside the slides. *)
Theorem dot_click_shows_slide (st : State) (h i : nat) :
  reachable st → slideDots st = Some h → i < length (currentDots st) →
  handle (DotClick h i) st = showSlide (Z.of_nat i) st
  ∧ currentSlide (handle (DotClick h i) st) = Z.of_nat i
  ∧ activeSlides (handle (DotClick h i) st) = [i]
  ∧ activeDots (handle (DotClick h i) st) = [i].
Proof.
  intros Hr Hh Hi.
  destruct (reachable_consistent st Hr) as (_ & _ & _ & _ & _ & _ & _ & Hl & _).
  assert (handle (DotClick h i) st = showSlide (Z.of_nat i) st) as ->.
  { revert Hi. unfold currentDots. simpl. rewrite Hh. simpl.
    destruct (dotsEls st !! h) as [ds|]; simpl; [|lia].
    intros Hi. by destruct (lookup_lt_is_Some_2 ds i Hi) as [d ->]. }
  split; [done|].
  destruct (showSlide_shown (Z.of_nat i) st (reachable_wf st Hr))
    as (Hc & Ha & _ & _ & Hd & _).
  { unfold slides_length. lia. }
  rewrite Hc, Ha, Hd, Nat2Z.id. rewrite decide_True by lia. done.
Qed.

Lemma dot_click_shows_slide_witness :
  reachable sampleShown ∧ slideDots sampleShown = Some 0
  ∧ 2 < length (currentDots sampleShown)
  ∧ activeSlides (handle (DotClick 0 2) sampleShown) = [2].
Proof.
  assert (2 < length (currentDots sampleShown)) as Hi by (simpl; lia).
  split; [exact reachable_sampleShown|]. split; [reflexivity|].
  split; [exact Hi|].
  destruct (dot_click_shows_slide sampleShown 0 2 reachable_sampleShown eq_refl Hi)
    as (_ & _ & Ha & _).
  exact Ha.
Defined.

(** *** The fragment *)

(** X6: the fragment that [showSlide] writes reads back as the same slide:
    the pattern matches it, the number parsed is the index plus one, and
    both the fragment-change listener and the resolution of the initial
    slide, run on the state that [showSlide] left, change nothing. *)
Theorem fragment_round_trip (index : Z) (st : State) :
  (0 ≤ index < slides_length st)%Z →
  slideMatch (location_hash (showSlide index st))
  = Some (Number_toString (index + 1))
  ∧ (parseInt (Number_toString (index + 1)) - 1)%Z = index
  ∧ hashchange (showSlide index st) = showSlide index st
  ∧ resolveInitialSlide (showSlide index st) = showSlide index st.
Proof.
  intros Hi.
  destruct (showSlide_fragment index st Hi) as [_ Hh].
  assert (slideMatch (location_hash (showSlide index st))
          = Some (Number_toString (index + 1))) as Hm
    by (rewrite Hh; apply slideMatch_Number_toString; lia).
  assert ((parseInt (Number_toString (index + 1)) - 1)%Z = index) as Hp
    by (rewrite parseInt_Number_toString; lia).
  split; [done|]. split; [done|]. split.
  - unfold hashchange. destruct (classList_contains _ _); [|done].
    rewrite Hm, Hp. apply showSlide_idemp.
  - unfold resolveInitialSlide. rewrite Hm, Hp. apply showSlide_idemp.
Qed.

Lemma fragment_round_trip_witness :
  (0 ≤ 2 < slides_length sampleShown)%Z
  ∧ hashchange (showSlide 2 sampleShown) = showSlide 2 sampleShown.
Proof.
  assert (0 ≤ 2 < slides_length sampleShown)%Z as Hi by (split; compute_done).
  split; [exact Hi|].
  destruct (fragment_round_trip 2 sampleShown Hi) as (_ & _ & Hh & _).
  exact Hh.
Defined.

(** X7: the fragment-change listener has no fallback: outside presentation
    mode, with a fragment that does not contain the pattern, or with a
    number that maps to no slide, it leaves the state as it is. *)
Theorem hashchange_ignores_invalid (st : State) :
  (classList_contains "slides-mode" (body_classList st) = false →
   hashchange st = st)
  ∧ (slideMatch (location_hash st) = None → hashchange st = st)
  ∧ (∀ ds, slideMatch (location_hash st) = Some ds →
           ¬ (1 ≤ parseInt ds ≤ slides_length st)%Z →
           hashchange st = st).
Proof.
  unfold hashchange. split; [by intros ->|]. split.
  - intros ->. by destruct (classList_contains _ _).
  - intros ds -> Hout. destruct (classList_contains _ _); [|done].
    apply showSlide_invalid. lia.
Qed.

Lemma hashchange_ignores_invalid_witness :
  let st := handle (Navigate "slide-0") sampleShown in
  slideMatch (location_hash st) = Some "0"
  ∧ ¬ (1 ≤ parseInt "0" ≤ slides_length st)%Z
  ∧ hashchange st = st.
Proof.
  intros st.
  assert (¬ (1 ≤ parseInt "0" ≤ slides_length st)%Z) as Hout
    by (intros [H _]; revert H; compute_done).
  split; [reflexivity|]. split; [exact Hout|].
  destruct (hashchange_ignores_invalid st) as (_ & _ & H).
  exact (H "0" eq_refl Hout).
Defined.

(** X8: in presentation mode, when the user puts slide-n in the address
    bar for a number n that maps to a slide and the browser reports the
    change, slide n-1 is shown. *)
Theorem navigate_shows_slide (n : Z) (st : State) :
  reachable st →
  classList_contains "slides-mode" (body_classList st) = true →
  (1 ≤ n ≤ slides_length st)%Z →
  let st' := run [Navigate ("slide-" +:+ Number_toString n); HashChange] st in
  currentSlide st' = (n - 1)%Z
  ∧ activeSlides st' = [Z.to_nat (n - 1)]
  ∧ counterText st'
    = Some (Number_toString n +:+ " of " +:+ Number_toString (slides_length st))
  ∧ location_hash st' = "#slide-" +:+ Number_toString n.
Proof.
  intros Hr Hmode Hn. simpl.
  set (st1 := set_location_hash ("slide-" +:+ Number_toString n) st).
  assert (location_hash st1 = "#slide-" +:+ Number_toString n) as Hh by done.
  unfold hashchange.
  change (body_classList st1) with (body_classList st). rewrite Hmode, Hh.
  rewrite slideMatch_Number_toString, parseInt_Number_toString by lia.
  destruct (showSlide_shown (n - 1) st1) as (Hc & Ha & Ht & _ & _ & Hf).
  - apply (reachable_wf st Hr).
  - change (slides_length st1) with (slides_length st). lia.
  - rewrite Hc, Ha, Ht, Hf. change (slides_length st1) with (slides_length st).
    by replace (n - 1 + 1)%Z with n by lia.
Qed.

Lemma navigate_shows_slide_witness :
  reachable sampleShown
  ∧ classList_contains "slides-mode" (body_classList sampleShown) = true
  ∧ (1 ≤ 3 ≤ slides_length sampleShown)%Z
  ∧ activeSlides (run [Navigate "slide-3"; HashChange] sampleShown) = [2].
Proof.
  assert (1 ≤ 3 ≤ slides_length sampleShown)%Z as Hn by (split; compute_done).
  split; [exact reachable_sampleShown|]. split; [reflexivity|].
  split; [exact Hn|].
  destruct (navigate_shows_slide 3 sampleShown reachable_sampleShown eq_refl Hn)
    as (_ & Ha & _).
  exact Ha.
Defined.

(** *** Leaving and entering presentation mode *)

Lemma modeBtn_click_other (k : nat) (this : ModeBtn) (st : State) :
  modeBtns st !! k = Some this → btn_dataset_mode this ≠ "slides" →
  modeBtn_click k st
  = set_location_hash ""
      (set_body_classList (classList_remove "slides-mode" (body_classList st))
         (set_modeBtns
            (alter (btn_setClasses (classList_add "active")) k
               (btn_setClasses (classList_remove "active") <$> modeBtns st))
            st)).
Proof.
  intros Hk Hm. unfold modeBtn_click. rewrite Hk.
  by rewrite bool_decide_eq_false_2.
Qed.

Lemma keydown_inactive (key : string) (st : State) :
  classList_contains "slides-mode" (body_classList st) = false →
  keydown key st = st.
Proof. intros H. unfold keydown. by rewrite H. Qed.

Lemma exit_state (k : nat) (this : ModeBtn) (st : State) :
  modeBtns st !! k = Some this → btn_dataset_mode this ≠ "slides" →
  location_hash (modeBtn_click k st) = ""
  ∧ classList_contains "slides-mode" (body_classList (modeBtn_click k st))
    = false
  ∧ currentSlide (modeBtn_click k st) = currentSlide st
  ∧ slides (modeBtn_click k st) = slides st
  ∧ slideEls (modeBtn_click k st) = slideEls st.
Proof.
  intros Hk Hm. rewrite (modeBtn_click_other k this st Hk Hm).
  repeat split; try done.
  apply bool_decide_eq_false_2, classList_remove_not_elem.
Qed.

(** X9: a click on a mode button other than "slides" leaves presentation
    mode without tearing anything down: the fragment is cleared and the
    body class removed, while the slides, the current index and the
    created elements stay; from then on key presses and fragment changes
    do nothing. *)
Theorem exit_keeps_slides (k : nat) (this : ModeBtn) (st : State) :
  modeBtns st !! k = Some this → btn_dataset_mode this ≠ "slides" →
  location_hash (modeBtn_click k st) = ""
  ∧ classList_contains "slides-mode" (body_classList (modeBtn_click k st))
    = false
  ∧ currentSlide (modeBtn_click k st) = currentSlide st
  ∧ slides (modeBtn_click k st) = slides st
  ∧ slideEls (modeBtn_click k st) = slideEls st
  ∧ navEls (modeBtn_click k st) = navEls st
  ∧ dotsEls (modeBtn_click k st) = dotsEls st
  ∧ main_children (modeBtn_click k st) = main_children st
  ∧ (∀ key, keydown key (modeBtn_click k st) = modeBtn_click k st)
  ∧ hashchange (modeBtn_click k st) = modeBtn_click k st.
Proof.
  intros Hk Hm. rewrite (modeBtn_click_other k this st Hk Hm).
  set (st' := set_location_hash _ _).
  assert (classList_contains "slides-mode" (body_classList st') = false) as Hb.
  { apply bool_decide_eq_false_2, classList_remove_not_elem. }
  repeat split; try done.
  - intros key. by apply keydown_inactive.
  - unfold hashchange. by rewrite Hb.
Qed.

Lemma exit_keeps_slides_witness :
  let st := run [KeyDown "ArrowRight"] sampleShown in
  modeBtns st !! 0 = Some (mkModeBtn "docs" ["mode-btn"])
  ∧ "docs" ≠ "slides"
  ∧ location_hash (modeBtn_click 0 st) = ""
  ∧ currentSlide (modeBtn_click 0 st) = 1%Z
  ∧ keydown "ArrowRight" (modeBtn_click 0 st) = modeBtn_click 0 st.
Proof.
  intros st.
  assert ("docs" ≠ "slides") as Hm by discriminate.
  split; [reflexivity|]. split; [exact Hm|].
  destruct (exit_keeps_slides 0 (mkModeBtn "docs" ["mode-btn"]) st eq_refl Hm)
    as (Hh & _ & Hc & _ & _ & _ & _ & _ & Hk & _).
  split; [exact Hh|]. split; [rewrite Hc; reflexivity|]. apply Hk.
Defined.

(** X10: the position is not restored on re-entry.  Leaving presentation
    mode clears the fragment, so entering it again right away shows the
    first slide, whatever slide was shown before; the slides are the same. *)
Theorem exit_then_reentry_shows_first (kd ks : nat) (bd bs : ModeBtn)
    (st : State) :
  reachable st →
  modeBtns st !! kd = Some bd → btn_dataset_mode bd ≠ "slides" →
  modeBtns st !! ks = Some bs → btn_dataset_mode bs = "slides" →
  slides st ≠ [] →
  let st' := run [ModeClick kd; ModeClick ks] st in
  currentSlide st' = 0%Z
  ∧ activeSlides st' = [0]
  ∧ location_hash st' = "#slide-1"
  ∧ slides st' = slides st
  ∧ slideContents st' = slideContents st.
Proof.
  intros Hr Hkd Hmd Hks Hms Hne. simpl.
  set (st1 := modeBtn_click kd st).
  assert (reachable st1) as Hr1 by apply (reachable_step (ModeClick kd) st Hr).
  destruct (exit_state kd bd st Hkd Hmd) as (Hh & _ & _ & Hs & Hels).
  fold st1 in Hh, Hs, Hels.
  assert (∃ bs', modeBtns st1 !! ks = Some bs'
                 ∧ btn_dataset_mode bs' = "slides") as (bs' & Hks' & Hms').
  { unfold st1. rewrite (modeBtn_click_other kd bd st Hkd Hmd). simpl.
    destruct (decide (kd = ks)) as [->|Hdiff].
    - rewrite list_lookup_alter_eq, list_lookup_fmap, Hks. simpl. eauto.
    - rewrite list_lookup_alter_ne, list_lookup_fmap, Hks by done. simpl. eauto. }
  assert (slides st1 ≠ []) as Hne1 by (by rewrite Hs).
  destruct (reentry_keeps_slides ks st1 Hne1) as (Hs2 & Hels2 & _).
  rewrite (modeBtn_click_slides ks bs' st1 Hks' Hms').
  unfold resolveInitialSlide. rewrite location_hash_enterSlides, Hh. simpl.
  destruct (showSlide_shown 0 (enterSlides ks st1)) as (Hc & Ha & _ & _ & _ & Hf).
  - apply wf_enterSlides, reachable_wf, Hr1.
  - unfold slides_length. rewrite Hs2. destruct (slides st1); [done|]. simpl. lia.
  - rewrite Hc, Ha, Hf, slideContents_showSlide.
    destruct (showSlide_frame 0 (enterSlides ks st1)) as (Hs3 & _).
    rewrite Hs3, Hs2, Hs. repeat split.
    unfold slideContents. by rewrite Hs2, Hels2, Hs, Hels.
Qed.

Lemma exit_then_reentry_shows_first_witness :
  let st := run [KeyDown "End"] sampleShown in
  reachable st
  ∧ modeBtns st !! 0 = Some (mkModeBtn "docs" ["mode-btn"])
  ∧ "docs" ≠ "slides"
  ∧ modeBtns st !! 1 = Some (mkModeBtn "slides" ["mode-btn"; "active"])
  ∧ slides st ≠ []
  ∧ currentSlide st = 3%Z
  ∧ currentSlide (run [ModeClick 0; ModeClick 1] st) = 0%Z.
Proof.
  intros st.
  assert (reachable st) as Hr by (apply reachable_step, reachable_sampleShown).
  assert ("docs" ≠ "slides") as Hm by discriminate.
  assert (slides st ≠ []) as Hne by discriminate.
  split; [exact Hr|]. split; [reflexivity|]. split; [exact Hm|].
  split; [reflexivity|]. split; [exact Hne|]. split; [reflexivity|].
  destruct (exit_then_reentry_shows_first 0 1 _ _ st Hr eq_refl Hm eq_refl
              eq_refl Hne) as (Hc & _).
  exact Hc.
Defined.

(** *** The mode buttons *)

Lemma modeBtns_enterSlides (k : nat) (st : State) :
  modeBtns (enterSlides k st)
  = alter (btn_setClasses (classList_add "active")) k
      (btn_setClasses (classList_remove "active") <$> modeBtns st).
Proof. unfold enterSlides. by case_bool_decide. Qed.

Lemma modeBtns_modeBtn_click (k : nat) (this : ModeBtn) (st : State) :
  modeBtns st !! k = Some this →
  modeBtns (modeBtn_click k st)
  = alter (btn_setClasses (classList_add "active")) k
      (btn_setClasses (classList_remove "active") <$> modeBtns st).
Proof.
  intros Hk. unfold modeBtn_click. rewrite Hk. case_bool_decide; [|done].
  unfold resolveInitialSlide.
  destruct (slideMatch _);
    destruct (showSlide_frame (parseInt s - 1) (enterSlides k st))
      as (_ & _ & _ & _ & _ & Hb & _) || 
    destruct (showSlide_frame 0 (enterSlides k st))
      as (_ & _ & _ & _ & _ & Hb & _);
    rewrite Hb; apply modeBtns_enterSlides.
Qed.

(** X11: the mode buttons exclude each other.  After a click on an existing
    mode button, that button is the only one that carries [active], in
    both modes; the modes of the buttons are unchanged. *)
Theorem mode_buttons_exclusive (k : nat) (this : ModeBtn) (st : State) :
  modeBtns st !! k = Some this →
  activeBtns (modeBtn_click k st) = [k]
  ∧ btn_dataset_mode <$> modeBtns (modeBtn_click k st)
    = btn_dataset_mode <$> modeBtns st.
Proof.
  intros Hk. pose proof (modeBtns_modeBtn_click k this st Hk) as Hb.
  assert (k < length (modeBtns st)) as Hlt by (by eapply lookup_lt_Some).
  split.
  - unfold activeBtns. rewrite Hb, length_alter, length_fmap.
    rewrite (filter_seq_unique _ _ k); [by rewrite decide_True|].
    intros j Hj. unfold classList_contains. rewrite bool_decide_eq_true.
    destruct (lookup_lt_is_Some_2 (modeBtns st) j Hj) as [b Hbj].
    destruct (decide (k = j)) as [->|Hne].
    + rewrite list_lookup_alter_eq, list_lookup_fmap, Hbj. simpl.
      split; [done|]. intros _. apply classList_add_elem.
    + rewrite list_lookup_alter_ne, list_lookup_fmap, Hbj by done. simpl.
      split; [|congruence]. intros Hin.
      by apply classList_remove_not_elem in Hin.
  - rewrite Hb. apply list_eq. intros j.
    rewrite !list_lookup_fmap.
    destruct (decide (k = j)) as [->|Hne].
    + rewrite list_lookup_alter_eq, list_lookup_fmap.
      by destruct (modeBtns st !! j).
    + rewrite list_lookup_alter_ne, list_lookup_fmap by done.
      by destruct (modeBtns st !! j).
Qed.

Lemma mode_buttons_exclusive_witness :
  modeBtns sampleLoaded !! 1 = Some (mkModeBtn "slides" ["mode-btn"])
  ∧ activeBtns sampleLoaded = [0]
  ∧ activeBtns (modeBtn_click 1 sampleLoaded) = [1].
Proof.
  split; [reflexivity|]. split; [reflexivity|].
  destruct (mode_buttons_exclusive 1 _ sampleLoaded eq_refl) as [Ha _].
  exact Ha.
Defined.

(** *** The keyboard *)

Lemma keydown_digit (n : nat) (st : State) :
  1 ≤ n ≤ 9 →
  classList_contains "slides-mode" (body_classList st) = true →
  keydown (digitKey n) st
  = if bool_decide (Z.of_nat n - 1 < slides_length st)%Z
    then showSlide (Z.of_nat n - 1) st else st.
Proof.
  intros Hn Hmode. unfold keydown, goToSlide. rewrite Hmode.
  assert (n ∈ [1; 2; 3; 4; 5; 6; 7; 8; 9]) as Hin
    by (rewrite !elem_of_cons; lia).
  repeat (apply elem_of_cons in Hin as [->|Hin]; [reflexivity|]).
  by apply elem_of_nil in Hin.
Qed.

(** X12: in presentation mode the key of a digit n from 1 to 9 jumps to
    slide n-1 when there are at least n slides, and is ignored
    otherwise. *)
Theorem digit_key_jumps (n : nat) (st : State) :
  reachable st → 1 ≤ n ≤ 9 →
  classList_contains "slides-mode" (body_classList st) = true →
  (n ≤ length (slides st) →
   currentSlide (keydown (digitKey n) st) = (Z.of_nat n - 1)%Z
   ∧ activeSlides (keydown (digitKey n) st) = [n - 1]
   ∧ location_hash (keydown (digitKey n) st)
     = "#slide-" +:+ Number_toString (Z.of_nat n))
  ∧ (length (slides st) < n → keydown (digitKey n) st = st).
Proof.
  intros Hr Hn Hmode. rewrite (keydown_digit n st Hn Hmode).
  unfold slides_length. split; intros Hle.
  - rewrite bool_decide_eq_true_2 by lia.
    destruct (showSlide_shown (Z.of_nat n - 1) st (reachable_wf st Hr))
      as (Hc & Ha & _ & _ & _ & Hf); [unfold slides_length; lia|].
    rewrite Hc, Ha, Hf. repeat split; do 2 f_equal; lia.
  - by rewrite bool_decide_eq_false_2 by lia.
Qed.

Lemma digit_key_jumps_witness :
  reachable sampleShown ∧ 1 ≤ 3 ≤ 9
  ∧ classList_contains "slides-mode" (body_classList sampleShown) = true
  ∧ 3 ≤ length (slides sampleShown)
  ∧ activeSlides (keydown "3" sampleShown) = [2]
  ∧ length (slides sampleShown) < 7
  ∧ keydown "7" sampleShown = sampleShown.
Proof.
  assert (1 ≤ 3 ≤ 9) as H3 by lia. assert (1 ≤ 7 ≤ 9) as H7 by lia.
  assert (3 ≤ length (slides sampleShown)) as Hle by (simpl; lia).
  assert (length (slides sampleShown) < 7) as Hlt by (simpl; lia).
  split; [exact reachable_sampleShown|]. split; [exact H3|].
  split; [reflexivity|]. split; [exact Hle|].
  destruct (digit_key_jumps 3 sampleShown reachable_sampleShown H3 eq_refl)
    as [Hin _].
  destruct (digit_key_jumps 7 sampleShown reachable_sampleShown H7 eq_refl)
    as [_ Hout].
  destruct (Hin Hle) as (_ & Ha & _).
  split; [exact Ha|]. split; [exact Hlt|]. exact (Hout Hlt).
Defined.

(** X13: in presentation mode with at least one slide, Home shows the
    first slide and End shows the last one. *)
Theorem home_end_keys (st : State) :
  reachable st →
  classList_contains "slides-mode" (body_classList st) = true →
  slides st ≠ [] →
  (currentSlide (keydown "Home" st) = 0%Z
   ∧ activeSlides (keydown "Home" st) = [0]
   ∧ location_hash (keydown "Home" st) = "#slide-1")
  ∧ (currentSlide (keydown "End" st) = (slides_length st - 1)%Z
     ∧ activeSlides (keydown "End" st) = [length (slides st) - 1]
     ∧ location_hash (keydown "End" st)
       = "#slide-" +:+ Number_toString (slides_length st)).
Proof.
  intros Hr Hmode Hne.
  assert (0 < slides_length st)%Z as Hpos
    by (unfold slides_length; destruct (slides st); [done|simpl; lia]).
  assert (keydown "Home" st = showSlide 0 st) as ->
    by (unfold keydown; by rewrite Hmode).
  assert (keydown "End" st = showSlide (slides_length st - 1) st) as ->
    by (unfold keydown; by rewrite Hmode).
  destruct (showSlide_shown 0 st (reachable_wf st Hr))
    as (Hc & Ha & _ & _ & _ & Hf); [lia|].
  destruct (showSlide_shown (slides_length st - 1) st (reachable_wf st Hr))
    as (Hc' & Ha' & _ & _ & _ & Hf'); [lia|].
  rewrite Hc, Ha, Hf, Hc', Ha', Hf'. repeat split.
  - f_equal. unfold slides_length. lia.
  - do 2 f_equal. lia.
Qed.

Lemma home_end_keys_witness :
  reachable sampleShown
  ∧ classList_contains "slides-mode" (body_classList sampleShown) = true
  ∧ slides sampleShown ≠ []
  ∧ activeSlides (keydown "End" sampleShown) = [3]
  ∧ activeSlides (keydown "Home" (keydown "End" sampleShown)) = [0].
Proof.
  assert (slides sampleShown ≠ []) as Hne by discriminate.
  assert (reachable (keydown "End" sampleShown)) as Hr
    by apply (reachable_step (KeyDown "End") _ reachable_sampleShown).
  split; [exact reachable_sampleShown|]. split; [reflexivity|].
  split; [exact Hne|].
  destruct (home_end_keys sampleShown reachable_sampleShown eq_refl Hne)
    as (_ & _ & Ha & _).
  destruct (home_end_keys (keydown "End" sampleShown) Hr eq_refl)
    as ((_ & Hb & _) & _); [discriminate|].
  split; [exact Ha|exact Hb].
Defined.

Lemma modeBtn_click_modes (k : nat) (st : State) :
  btn_dataset_mode <$> modeBtns (modeBtn_click k st)
  = btn_dataset_mode <$> modeBtns st.
Proof.
  destruct (modeBtns st !! k) as [this|] eqn:Hk;
    [|by unfold modeBtn_click; rewrite Hk].
  rewrite (modeBtns_modeBtn_click k this st Hk). apply list_eq. intros j.
  rewrite !list_lookup_fmap.
  destruct (decide (k = j)) as [->|Hne].
  - rewrite list_lookup_alter_eq, list_lookup_fmap.
    by destruct (modeBtns st !! j).
  - rewrite list_lookup_alter_ne, list_lookup_fmap by done.
    by destruct (modeBtns st !! j).
Qed.

(** The [Escape] loop: with the buttons still to visit being those of the
    state from position [k] on, it changes nothing when none of them has
    the mode "docs", and leaves presentation mode when one has. *)
Lemma clickDocsBtns_spec (btns : list ModeBtn) (k : nat) (st : State) :
  btn_dataset_mode <$> drop k (modeBtns st) = btn_dataset_mode <$> btns →
  slides (clickDocsBtns k btns st) = slides st
  ∧ currentSlide (clickDocsBtns k btns st) = currentSlide st
  ∧ slideEls (clickDocsBtns k btns st) = slideEls st
  ∧ (Forall (λ b, btn_dataset_mode b ≠ "docs") btns →
     clickDocsBtns k btns st = st)
  ∧ ((location_hash st = ""
      ∧ classList_contains "slides-mode" (body_classList st) = false)
     ∨ Exists (λ b, btn_dataset_mode b = "docs") btns →
     location_hash (clickDocsBtns k btns st) = ""
     ∧ classList_contains "slides-mode"
         (body_classList (clickDocsBtns k btns st)) = false).
Proof.
  revert k st. induction btns as [|btn btns IH]; intros k st Hmodes.
  { simpl. split; [done|]. split; [done|]. split; [done|]. split; [done|].
    intros [Hq|Hex]; [exact Hq|by inversion Hex]. }
  destruct (drop k (modeBtns st)) as [|bk tl] eqn:Hdrop; [done|].
  injection Hmodes as Hbk Htl.
  assert (modeBtns st !! k = Some bk) as Hk.
  { rewrite <- (Nat.add_0_r k), <- lookup_drop. by rewrite Hdrop. }
  assert (drop (S k) (modeBtns st) = tl) as Hdrop'.
  { rewrite (drop_S _ _ _ Hk) in Hdrop. by injection Hdrop. }
  simpl. case_bool_decide as Hdocs.
  - assert (btn_dataset_mode bk ≠ "slides") as Hns by (rewrite Hbk, Hdocs; done).
    destruct (exit_state k bk st Hk Hns) as (Hh & Hb & Hc & Hs & Hels).
    destruct (IH (S k) (modeBtn_click k st)) as (Hs' & Hc' & Hels' & _ & Hexit).
    { rewrite fmap_drop, modeBtn_click_modes, <- fmap_drop. by rewrite Hdrop'. }
    rewrite Hs', Hc', Hels', Hs, Hc, Hels.
    split; [done|]. split; [done|]. split; [done|]. split.
    + intros Hall. apply Forall_cons_1 in Hall as [Hnd _]. done.
    + intros _. apply Hexit. by left.
  - destruct (IH (S k) st) as (Hs' & Hc' & Hels' & Hnone & Hexit).
    { by rewrite Hdrop'. }
    split; [done|]. split; [done|]. split; [done|]. split.
    + intros Hall. apply Forall_cons_1 in Hall as [_ Hall]. by apply Hnone.
    + intros [Hq|Hex]; apply Hexit; [by left|].
      apply Exists_cons in Hex as [Hhd|Htl']; [done|by right].
Qed.

(** X14: in presentation mode Escape leaves it through the mode buttons:
    when some mode button has the mode "docs", the body class is removed
    and the fragment cleared, with the slides and the current index kept;
    when no button has that mode, Escape does nothing. *)
Theorem escape_key (st : State) :
  classList_contains "slides-mode" (body_classList st) = true →
  (Exists (λ b, btn_dataset_mode b = "docs") (modeBtns st) →
   location_hash (keydown "Escape" st) = ""
   ∧ classList_contains "slides-mode" (body_classList (keydown "Escape" st))
     = false
   ∧ slides (keydown "Escape" st) = slides st
   ∧ currentSlide (keydown "Escape" st) = currentSlide st)
  ∧ (Forall (λ b, btn_dataset_mode b ≠ "docs") (modeBtns st) →
     keydown "Escape" st = st).
Proof.
  intros Hmode.
  assert (keydown "Escape" st = clickDocsBtns 0 (modeBtns st) st) as ->
    by (unfold keydown; by rewrite Hmode).
  destruct (clickDocsBtns_spec (modeBtns st) 0 st eq_refl)
    as (Hs & Hc & _ & Hnone & Hexit).
  split; [|exact Hnone].
  intros Hex. destruct (Hexit (or_intror Hex)) as [Hh Hb]. done.
Qed.

Lemma escape_key_witness :
  classList_contains "slides-mode" (body_classList sampleShown) = true
  ∧ Exists (λ b, btn_dataset_mode b = "docs") (modeBtns sampleShown)
  ∧ location_hash (keydown "Escape" sampleShown) = ""
  ∧ keydown "ArrowRight" (keydown "Escape" sampleShown)
    = keydown "Escape" sampleShown.
Proof.
  assert (Exists (λ b, btn_dataset_mode b = "docs") (modeBtns sampleShown))
    as Hex by (by left).
  split; [reflexivity|]. split; [exact Hex|].
  destruct (escape_key sampleShown eq_refl) as [Hexit _].
  destruct (Hexit Hex) as (Hh & Hb & _).
  split; [exact Hh|]. by apply keydown_inactive.
Defined.

(** *** One step forward and back *)

(** X15: in every reachable state, [nextSlide] before the last slide shows
    the next slide, [prevSlide] after the first slide shows the previous
    one, and [prevSlide] after [nextSlide] shows the slide one started
    from. *)
Theorem next_prev_steps (st : State) :
  reachable st →
  ((currentSlide st < slides_length st - 1)%Z →
   currentSlide (nextSlide st) = (currentSlide st + 1)%Z
   ∧ activeSlides (nextSlide st) = [Z.to_nat (currentSlide st + 1)]
   ∧ location_hash (nextSlide st)
     = "#slide-" +:+ Number_toString (currentSlide st + 2)
   ∧ currentSlide (prevSlide (nextSlide st)) = currentSlide st
   ∧ activeSlides (prevSlide (nextSlide st)) = [Z.to_nat (currentSlide st)])
  ∧ ((currentSlide st > 0)%Z →
     currentSlide (prevSlide st) = (currentSlide st - 1)%Z
     ∧ activeSlides (prevSlide st) = [Z.to_nat (currentSlide st - 1)]
     ∧ location_hash (prevSlide st)
       = "#slide-" +:+ Number_toString (currentSlide st)).
Proof.
  intros Hr. pose proof (reachable_wf st Hr) as Hwf.
  destruct (reachable_consistent st Hr) as (H0 & Hnil & Hlt & _).
  split.
  - intros Hnext.
    assert (nextSlide st = showSlide (currentSlide st + 1) st) as Hn
      by (unfold nextSlide; by rewrite bool_decide_eq_true_2).
    destruct (showSlide_shown (currentSlide st + 1) st Hwf)
      as (Hc & Ha & _ & _ & _ & Hf); [lia|].
    rewrite Hn, Hc, Ha, Hf.
    assert (prevSlide (showSlide (currentSlide st + 1) st)
            = showSlide (currentSlide st)
                (showSlide (currentSlide st + 1) st)) as ->.
    { unfold prevSlide. rewrite Hc, bool_decide_eq_true_2 by lia.
      f_equal. lia. }
    destruct (showSlide_shown (currentSlide st)
                (showSlide (currentSlide st + 1) st))
      as (Hc' & Ha' & _); [by apply wf_showSlide| |].
    { rewrite slides_length_showSlide. lia. }
    rewrite Hc', Ha'. repeat split. do 2 f_equal. lia.
  - intros Hprev.
    assert (slides st ≠ []) as Hne by (intros Hs; specialize (Hnil Hs); lia).
    specialize (Hlt Hne).
    assert (prevSlide st = showSlide (currentSlide st - 1) st) as ->
      by (unfold prevSlide; by rewrite bool_decide_eq_true_2).
    destruct (showSlide_shown (currentSlide st - 1) st Hwf)
      as (Hc & Ha & _ & _ & _ & Hf); [lia|].
    rewrite Hc, Ha, Hf. repeat split. do 2 f_equal. lia.
Qed.

Lemma next_prev_steps_witness :
  reachable sampleShown
  ∧ (currentSlide sampleShown < slides_length sampleShown - 1)%Z
  ∧ activeSlides (nextSlide sampleShown) = [1]
  ∧ activeSlides (prevSlide (nextSlide sampleShown)) = [0].
Proof.
  assert (currentSlide sampleShown < slides_length sampleShown - 1)%Z as Hlt
    by compute_done.
  split; [exact reachable_sampleShown|]. split; [exact Hlt|].
  destruct (next_prev_steps sampleShown reachable_sampleShown) as [Hn _].
  destruct (Hn Hlt) as (_ & Ha & _ & _ & Hb).
  split; [exact Ha|exact Hb].
Defined.

(** *** The slides are fixed once there is one *)

Lemma slides_kept_showSlide (index : Z) (st : State) :
  slides (showSlide index st) = slides st
  ∧ slideContents (showSlide index st) = slideContents st.
Proof.
  split; [apply showSlide_frame|apply slideContents_showSlide].
Qed.

Lemma slides_kept_modeBtn_click (k : nat) (st : State) :
  slides st ≠ [] →
  slides (modeBtn_click k st) = slides st
  ∧ slideContents (modeBtn_click k st) = slideContents st.
Proof.
  intros Hne. unfold modeBtn_click. destruct (modeBtns st !! k); [|done].
  case_bool_decide; [|done].
  destruct (reentry_keeps_slides k st Hne) as (Hs & Hels & _).
  assert (slideContents (enterSlides k st) = slideContents st) as Hc
    by (unfold slideContents; by rewrite Hs, Hels).
  unfold resolveInitialSlide.
  destruct (slideMatch _) as [ds|].
  - destruct (slides_kept_showSlide (parseInt ds - 1) (enterSlides k st))
      as [-> ->]. done.
  - destruct (slides_kept_showSlide 0 (enterSlides k st)) as [-> ->]. done.
Qed.

Lemma slides_kept_clickDocsBtns (btns : list ModeBtn) (k : nat) (st : State) :
  slides st ≠ [] →
  slides (clickDocsBtns k btns st) = slides st
  ∧ slideContents (clickDocsBtns k btns st) = slideContents st.
Proof.
  revert k st. induction btns as [|btn btns IH]; intros k st Hne; [done|].
  simpl. case_bool_decide; [|by apply IH].
  destruct (slides_kept_modeBtn_click k st Hne) as [Hs Hc].
  destruct (IH (S k) (modeBtn_click k st)) as [-> ->]; [by rewrite Hs|done].
Qed.

Lemma slides_kept_handle (ev : Event) (st : State) :
  slides st ≠ [] →
  slides (handle ev st) = slides st
  ∧ slideContents (handle ev st) = slideContents st.
Proof.
  intros Hne. destruct ev as [k| | |h i|key| |fragment]; simpl.
  - by apply slides_kept_modeBtn_click.
  - case_bool_decide; [done|]. unfold prevSlide.
    case_bool_decide; [apply slides_kept_showSlide|done].
  - case_bool_decide; [done|]. unfold nextSlide.
    case_bool_decide; [apply slides_kept_showSlide|done].
  - destruct (_ ≫= _); [apply slides_kept_showSlide|done].
  - unfold keydown, goToSlide, nextSlide, prevSlide.
    repeat (case_match; try done);
      auto using slides_kept_showSlide, slides_kept_clickDocsBtns.
  - unfold hashchange. repeat (case_match; try done).
    apply slides_kept_showSlide.
  - done.
Qed.

(** X16: once there is a slide, nothing the user does changes the slides:
    after any sequence of clicks, key presses and fragment changes, the
    slide list and the nodes of every slide are the same. *)
Theorem slides_fixed_once_built (evs : list Event) (st : State) :
  slides st ≠ [] →
  slides (run evs st) = slides st
  ∧ slideContents (run evs st) = slideContents st.
Proof.
  revert st. induction evs as [|ev evs IH]; intros st Hne; [done|].
  change (run (ev :: evs) st) with (run evs (handle ev st)).
  destruct (slides_kept_handle ev st Hne) as [Hs Hc].
  destruct (IH (handle ev st)) as [-> ->]; [by rewrite Hs|done].
Qed.

Lemma slides_fixed_once_built_witness :
  let evs := [KeyDown "End"; ModeClick 0; Navigate "slide-2"; ModeClick 1;
              KeyDown "Escape"; ModeClick 1; DotClick 0 3] in
  slides sampleShown ≠ []
  ∧ slideContents (run evs sampleShown) = slideContents sampleShown
  ∧ currentSlide (run evs sampleShown) = 3%Z.
Proof.
  intros evs.
  assert (slides sampleShown ≠ []) as Hne by discriminate.
  split; [exact Hne|].
  destruct (slides_fixed_once_built evs sampleShown Hne) as [_ Hc].
  split; [exact Hc|reflexivity].
Defined.

(** X17: an entry into presentation mode builds exactly when the slide
    list is empty.  With no slide it runs [createSlides] and
    [createNavigation]: one navigation bar and one dot bar more, appended
    at the end of [main].  With a slide it creates nothing and leaves
    [main] as it is. *)
Theorem entry_builds_iff_no_slide (k : nat) (this : ModeBtn) (st : State) :
  modeBtns st !! k = Some this → btn_dataset_mode this = "slides" →
  (slides st = [] →
   length (navEls (modeBtn_click k st)) = S (length (navEls st))
   ∧ length (dotsEls (modeBtn_click k st)) = S (length (dotsEls st))
   ∧ slideNav (modeBtn_click k st) = Some (length (navEls st))
   ∧ slideDots (modeBtn_click k st) = Some (length (dotsEls st))
   ∧ main_children (modeBtn_click k st)
     = main_children (createSlides st)
       ++ [NavRef (length (navEls st)); DotsRef (length (dotsEls st))])
  ∧ (slides st ≠ [] →
     length (slideEls (modeBtn_click k st)) = length (slideEls st)
     ∧ length (navEls (modeBtn_click k st)) = length (navEls st)
     ∧ length (dotsEls (modeBtn_click k st)) = length (dotsEls st)
     ∧ slideNav (modeBtn_click k st) = slideNav st
     ∧ slideDots (modeBtn_click k st) = slideDots st
     ∧ main_children (modeBtn_click k st) = main_children st).
Proof.
  intros Hk Hm. rewrite (modeBtn_click_slides k this st Hk Hm).
  assert (∀ st0, ∃ index, resolveInitialSlide st0 = showSlide index st0)
    as Hres.
  { intros st0. unfold resolveInitialSlide. destruct (slideMatch _); eauto. }
  destruct (Hres (enterSlides k st)) as [index ->].
  destruct (showSlide_frame index (enterSlides k st))
    as (_ & -> & -> & -> & _ & _ & -> & -> & ->).
  split.
  - intros Hnil. destruct (entry_without_slides_builds k st Hnil) as [-> _].
    simpl. rewrite !length_app. simpl. repeat split; lia.
  - intros Hne.
    destruct (reentry_keeps_slides k st Hne) as (_ & -> & -> & -> & ->).
    unfold enterSlides.
    rewrite bool_decide_eq_false_2; [done|].
    unfold slides_length. simpl. destruct (slides st); [done|]. simpl. lia.
Qed.

Lemma entry_builds_iff_no_slide_witness :
  modeBtns sampleLoaded !! 1 = Some (mkModeBtn "slides" ["mode-btn"])
  ∧ slides sampleLoaded = []
  ∧ length (navEls (modeBtn_click 1 sampleLoaded)) = 1
  ∧ slides sampleShown ≠ []
  ∧ length (navEls (modeBtn_click 1 sampleShown)) = 1.
Proof.
  assert (slides sampleShown ≠ []) as Hne by discriminate.
  split; [reflexivity|]. split; [reflexivity|].
  destruct (entry_builds_iff_no_slide 1 _ sampleLoaded eq_refl eq_refl)
    as [Hb _].
  destruct (entry_builds_iff_no_slide 1 (mkModeBtn "slides" ["mode-btn"; "active"])
              sampleShown eq_refl eq_refl) as [_ Hk].
  destruct (Hb eq_refl) as (Hl & _). destruct (Hk Hne) as (_ & Hl' & _).
  split; [exact Hl|]. split; [exact Hne|]. rewrite Hl'. reflexivity.
Defined.

(** *** Where the nodes go *)



(** *** Headings inside slides *)

Section HeadingFacts.
Context {A : Type} (tagOf : A → string).

Lemma forEachBreaks_h2 (n i : nat) (rest : list A) (k : nat) (el : A) :
  rest !! k = Some el → tagOf el = "H2" →
  i + k ∈ forEachBreaks tagOf n i rest.
Proof.
  revert i k. induction rest as [|x rest IH]; intros i k; simpl; [done|].
  destruct k as [|k]; simpl.
  - intros [= ->] Hh2. apply elem_of_app; left.
    rewrite (bool_decide_eq_true_2 (tagOf el = "H2")) by done.
    rewrite (bool_decide_eq_false_2 (tagOf el = "HR")) by congruence.
    simpl. rewrite Nat.add_0_r. by left.
  - intros Hk Hh2. apply elem_of_app; right.
    replace (i + S k) with (S i + k) by lia. by apply IH.
Qed.

Lemma slice_lookup (s e : nat) (l : list A) (j : nat) (x : A) :
  slice s e l !! j = Some x → l !! (s + j) = Some x ∧ s + j < e.
Proof.
  unfold slice. rewrite lookup_take_Some, lookup_drop. intros [? ?].
  split; [done|lia].
Qed.

(** Strictly between two consecutive break points there is no h2. *)
Lemma no_h2_inside (content : list A) (l1 l2 : list nat) (s e p : nat)
    (el : A) :
  slideBreakPoints tagOf content = l1 ++ s :: e :: l2 →
  s < p < e → content !! p = Some el → tagOf el = "H2" → False.
Proof.
  intros Hbp Hp Hel Hh2.
  pose proof (forEachBreaks_h2 (length content) 0 content p el Hel Hh2) as Hin.
  simpl in Hin.
  pose proof (breakPoints_tail_sorted tagOf content) as Hsorted.
  unfold slideBreakPoints in Hbp.
  set (tl := forEachBreaks tagOf (length content) 0 content
             ++ [length content]) in *.
  assert (p ∈ tl) as Hin' by (apply elem_of_app; by left).
  assert ((∃ l1', tl = l1' ++ s :: e :: l2) ∨ tl = e :: l2) as [[l1' Htl]|Htl].
  { destruct (findIndex _ content) as [h1Index|]; [|left; by exists l1].
    destruct l1 as [|x l1]; simpl in Hbp.
    - right. by injection Hbp as _ ->.
    - left. injection Hbp as _ ->. by exists l1. }
  - rewrite Htl in Hin', Hsorted.
    apply StronglySorted_app in Hsorted as (Hbefore & _ & Hafter).
    apply StronglySorted_cons in Hafter as [_ Hafter].
    apply StronglySorted_cons in Hafter as [Hafter _].
    rewrite Forall_forall in Hafter.
    rewrite elem_of_app, !elem_of_cons in Hin'.
    destruct Hin' as [Hin'|[?|[?|Hin']]]; [|lia|lia|].
    + specialize (Hbefore _ s Hin' ltac:(left)). lia.
    + specialize (Hafter _ Hin'). lia.
  - rewrite Htl in Hin', Hsorted.
    apply StronglySorted_cons in Hsorted as [Hafter _].
    rewrite Forall_forall in Hafter.
    apply elem_of_cons in Hin' as [?|Hin']; [lia|].
    specialize (Hafter _ Hin'). lia.
Qed.

(** In a slide an h2 can only be the first child. *)
Lemma slideGroups_h2_first (content g : list A) (i : nat) (el : A) :
  g ∈ slideGroups tagOf content →
  g !! i = Some el → tagOf el = "H2" → i = 0.
Proof.
  intros Hg Hi Hh2.
  apply elem_of_slideLoop in Hg as (l1 & s & e & l2 & Hbp & Hk & ->).
  destruct i as [|i]; [done|]. exfalso.
  destruct (slice s e content) as [|el0 rest] eqn:Hsl; [done|].
  unfold slideChildren in Hi.
  assert (el ∈ rest) as Hin.
  { destruct (decide (tagOf el0 = "HR")) as [Hhr|Hhr].
    - rewrite (kept_starts_with_content _ _ _ _ _ _ _ _ Hbp Hsl Hhr) in Hi.
      by rewrite filter_cons_False, filter_nil in Hi by (intros Hn; done).
    - rewrite filter_cons_True in Hi by done. simpl in Hi.
      apply list_elem_of_lookup_2 in Hi.
      by apply list_elem_of_filter in Hi as [_ ?]. }
  apply list_elem_of_lookup_1 in Hin as [j Hj].
  assert (slice s e content !! S j = Some el) as Hsj by (by rewrite Hsl).
  apply slice_lookup in Hsj as [Hc Hlt].
  apply (no_h2_inside content l1 l2 s e (s + S j) el Hbp); [lia|done|done].
Qed.

End HeadingFacts.

(** X19: a rank-2 heading always starts its slide: in every slide that
    [createSlides] produces, an h2 can only be the first child. *)
Theorem h2_starts_its_slide (st : State) (g : list Child) (i : nat)
    (el : Child) :
  g ∈ slideContents (createSlides st) →
  g !! i = Some el → child_tagName el = "H2" → i = 0.
Proof.
  rewrite slideContents_createSlides. apply slideGroups_h2_first.
Qed.

Lemma h2_starts_its_slide_witness :
  let g := [Page (mkElement 2 "H2" []); Page (mkElement 3 "P" [])] in
  g ∈ slideContents (createSlides sampleLoaded)
  ∧ ∀ i, g !! i = Some (Page (mkElement 2 "H2" [])) → i = 0.
Proof.
  intros g.
  assert (g ∈ slideContents (createSlides sampleLoaded)) as Hg
    by (right; left).
  split; [exact Hg|].
  intros i Hi.
  exact (h2_starts_its_slide sampleLoaded g i _ Hg Hi eq_refl).
Defined.

(** *** A page without slides stays without slides *)

Section NoSlideFacts.
Context {A : Type} (tagOf : A → string).

Lemma foldr_min_le (n b : nat) (bps : list nat) :
  b ∈ bps → foldr Nat.min n bps ≤ b.
Proof.
  induction bps as [|x bps IH]; [by intros ?%elem_of_nil|].
  intros [->|Hin]%elem_of_cons; simpl; [lia|]. specialize (IH Hin). lia.
Qed.

Lemma findIndex_le (p : A → bool) (l : list A) (j : nat) (el : A) :
  l !! j = Some el → p el = true → ∃ h, findIndex p l = Some h ∧ h ≤ j.
Proof.
  revert j. induction l as [|x l IH]; intros j; [done|]. simpl.
  destruct (p x) eqn:Hx; [intros _ _; exists 0; split; [done|lia]|].
  destruct j as [|j]; simpl.
  - intros [= ->] Hp. congruence.
  - intros Hj Hp. destruct (IH j Hj Hp) as (h & -> & Hle).
    exists (S h). split; [done|lia].
Qed.

(** The first boundary is at or before every heading. *)
Lemma firstBoundary_le_heading (content : list A) (j : nat) (el : A) :
  content !! j = Some el → tagOf el = "H1" ∨ tagOf el = "H2" →
  firstBoundary tagOf content ≤ j.
Proof.
  intros Hj [H1|H2]; unfold firstBoundary, slideBreakPoints.
  - destruct (findIndex_le (λ el, bool_decide (tagOf el = "H1")) content j el)
      as (h & -> & Hle); [done|by apply bool_decide_eq_true_2|].
    simpl. lia.
  - etrans; [apply (foldr_min_le _ j)|done].
    apply elem_of_app. right. apply elem_of_app. left.
    apply (forEachBreaks_h2 tagOf (length content) 0 content j el Hj H2).
Qed.

(** When segmentation produces no slide, the content has no heading. *)
Lemma no_slide_no_heading (content : list A) :
  slideGroups tagOf content = [] →
  Forall (λ el, tagOf el ≠ "H1" ∧ tagOf el ≠ "H2") content.
Proof.
  intros Hg. apply Forall_lookup. intros j el Hj.
  assert (¬ (tagOf el = "H1" ∨ tagOf el = "H2")) as Hno; [|tauto].
  intros Htag.
  pose proof (firstBoundary_le_heading content j el Hj Htag) as Hle.
  pose proof (concat_slideGroups tagOf content) as Hc.
  rewrite Hg in Hc. simpl in Hc.
  assert (el ∈ slideChildren tagOf (drop (firstBoundary tagOf content) content))
    as Hin; [|by rewrite <- Hc in Hin; apply elem_of_nil in Hin].
  apply list_elem_of_filter. split; [destruct Htag; congruence|].
  apply (list_elem_of_lookup_2 _ (j - firstBoundary tagOf content)).
  rewrite lookup_drop. by replace (_ + (j - _)) with j by lia.
Qed.

Lemma slideGroups_no_boundary (content : list A) :
  Forall (λ el, tagOf el ≠ "H1" ∧ tagOf el ≠ "H2" ∧ tagOf el ≠ "HR") content →
  slideGroups tagOf content = [].
Proof.
  intros Hno. unfold slideGroups, slideBreakPoints.
  rewrite findIndex_None, forEachBreaks_no_boundary; [done| |].
  - eapply Forall_impl; [exact Hno|]. simpl. tauto.
  - eapply Forall_impl; [exact Hno|]. simpl. intros el (H1 & _ & _).
    by apply bool_decide_eq_false_2.
Qed.

End NoSlideFacts.

Lemma list_difference_nil_r {X : Type} `{EqDecision X} (l : list X) :
  list_difference l [] = l.
Proof.
  induction l as [|x l IH]; [done|]. simpl.
  destruct (decide_rel elem_of x []) as [Hin|_]; [by apply elem_of_nil in Hin|].
  by rewrite IH.
Qed.

Lemma isControl_ext (st st' : State) (c : Child) :
  slideEls st' = slideEls st → isControl st' c = isControl st c.
Proof.
  intros Hels. unfold isControl.
  assert (child_classList st' c = child_classList st c) as ->; [|done].
  destruct c; simpl; by rewrite ?Hels.
Qed.

Lemma contentOf_ext (st st' : State) :
  main_children st' = main_children st → slideEls st' = slideEls st →
  contentOf st' = contentOf st.
Proof.
  intros Hm Hels. unfold contentOf. rewrite Hm.
  apply list_filter_iff. intros c. by rewrite (isControl_ext st st' c Hels).
Qed.

(** After an initialisation that produced no slide, the content is what it
    was without its rules. *)
Lemma contentOf_build_no_slide (st : State) :
  slideGroups child_tagName (contentOf st) = [] →
  slides (createNavigation (createSlides st)) = []
  ∧ contentOf (createNavigation (createSlides st))
    = filter (λ el, child_tagName el ≠ "HR") (contentOf st).
Proof.
  intros Hg. split; [unfold createNavigation, createSlides; simpl; by rewrite Hg|].
  unfold contentOf at 1, createNavigation, createSlides. simpl.
  rewrite Hg. simpl. rewrite list_difference_nil_r, !app_nil_r, filter_app.
  rewrite (filter_cons_False _ (NavRef _)) by (intros H; done).
  rewrite (filter_cons_False _ (DotsRef _)) by (intros H; done).
  rewrite filter_nil, app_nil_r.
  unfold contentOf.
  rewrite !list_filter_filter. apply list_filter_iff. intros c.
  unfold isControl. simpl.
  assert (child_classList
            (mkState (currentSlide st) [] (Some (length (navEls st)))
               (Some (length (dotsEls st))) (slideEls st)
               (navEls st ++
                [mkSlideNav ("1 of " +:+ Number_toString 0) false false])
               (dotsEls st ++ [[]])
               (filter (λ el, child_tagName el ≠ "HR") (main_children st) ++
                [NavRef (length (navEls st)); DotsRef (length (dotsEls st))])
               (body_classList st) (modeBtns st) (location_fragment st)) c
          = child_classList st c) as Hcl by (by destruct c).
  unfold slides_length in *. simpl in *.
  rewrite ?Hcl. tauto.
Qed.

Lemma showSlide_no_slide (index : Z) (st : State) :
  slides st = [] → showSlide index st = st.
Proof.
  intros Hnil. apply showSlide_invalid. unfold slides_length.
  rewrite Hnil. simpl. lia.
Qed.

Lemma clickDocsBtns_quiet (btns : list ModeBtn) (k : nat) (st : State) :
  btn_dataset_mode <$> drop k (modeBtns st) = btn_dataset_mode <$> btns →
  slideNav (clickDocsBtns k btns st) = slideNav st
  ∧ main_children (clickDocsBtns k btns st) = main_children st.
Proof.
  revert k st. induction btns as [|btn btns IH]; intros k st Hmodes; [done|].
  destruct (drop k (modeBtns st)) as [|bk tl] eqn:Hdrop; [done|].
  injection Hmodes as Hbk Htl.
  assert (modeBtns st !! k = Some bk) as Hk.
  { rewrite <- (Nat.add_0_r k), <- lookup_drop. by rewrite Hdrop. }
  assert (drop (S k) (modeBtns st) = tl) as Hdrop'.
  { rewrite (drop_S _ _ _ Hk) in Hdrop. by injection Hdrop. }
  simpl. case_bool_decide as Hdocs.
  - assert (btn_dataset_mode bk ≠ "slides") as Hns by (rewrite Hbk, Hdocs; done).
    destruct (IH (S k) (modeBtn_click k st)) as [-> ->].
    { rewrite fmap_drop, modeBtn_click_modes, <- fmap_drop. by rewrite Hdrop'. }
    by rewrite (modeBtn_click_other k bk st Hk Hns).
  - apply IH. by rewrite Hdrop'.
Qed.

(** What one event does while there is no slide: either it leaves the
    slide list, [slideNav], the children of [main] and the slide store as
    they are, or it is an entry into presentation mode, which runs the
    initialisation on a state with the same children of [main]. *)
Lemma handle_no_slide (ev : Event) (st : State) :
  slides st = [] →
  (slides (handle ev st) = []
   ∧ slideNav (handle ev st) = slideNav st
   ∧ main_children (handle ev st) = main_children st
   ∧ slideEls (handle ev st) = slideEls st)
  ∨ (∃ st1 index,
       main_children st1 = main_children st ∧ slideEls st1 = slideEls st
       ∧ handle ev st = showSlide index (createNavigation (createSlides st1))).
Proof.
  intros Hnil.
  assert (∀ index, showSlide index st = st) as Hshow
    by (intros; by apply showSlide_no_slide).
  destruct ev as [k| | |h i|key| |fragment]; simpl.
  - unfold modeBtn_click. destruct (modeBtns st !! k) as [this|]; [|by left].
    case_bool_decide; [|by left]. right.
    destruct (entry_without_slides_builds k st Hnil) as [-> _].
    unfold resolveInitialSlide.
    destruct (slideMatch _) as [ds|];
      refine (ex_intro _ _ (ex_intro _ _ (conj _ (conj _ eq_refl)))); done.
  - left. unfold prevSlide. repeat case_bool_decide; by rewrite ?Hshow.
  - left. unfold nextSlide. repeat case_bool_decide; by rewrite ?Hshow.
  - left. destruct (_ ≫= _); by rewrite ?Hshow.
  - left. unfold keydown, goToSlide, nextSlide, prevSlide.
    destruct (clickDocsBtns_spec (modeBtns st) 0 st eq_refl)
      as (Hs & _ & Hels & _).
    destruct (clickDocsBtns_quiet (modeBtns st) 0 st eq_refl) as [Hn Hm].
    repeat (case_match; try done); rewrite ?Hshow; try done.
    rewrite Hs, Hn, Hm, Hels. done.
  - left. unfold hashchange. repeat (case_match; try done); by rewrite ?Hshow.
  - by left.
Qed.

Lemma noBoundary_filter (content : list Child) :
  Forall (λ el, child_tagName el ≠ "H1" ∧ child_tagName el ≠ "H2") content →
  Forall noBoundary (filter (λ el, child_tagName el ≠ "HR") content).
Proof.
  intros Hno. apply Forall_forall. intros el [Hhr Hin]%list_elem_of_filter.
  rewrite Forall_forall in Hno. destruct (Hno el Hin). by repeat split.
Qed.

(** In a reachable state that was initialised and has no slide, the
    content has no heading and no rule left. *)
Lemma reachable_no_slide_content (st : State) :
  reachable st → slides st = [] → slideNav st ≠ None →
  Forall noBoundary (contentOf st).
Proof.
  induction 1 as [page bodyClasses btns fragment|ev st Hr IH]; [done|].
  intros Hnil Hnav.
  destruct (decide (slides st = [])) as [Hnil0|Hne];
    [|by destruct (slides_kept_handle ev st Hne) as [Hs _]; rewrite Hs in Hnil].
  destruct (handle_no_slide ev st Hnil0)
    as [(_ & Hn & Hm & Hels)|(st1 & index & Hm & Hels & Heq)].
  - rewrite (contentOf_ext st (handle ev st) Hm Hels). apply IH; [done|].
    by rewrite <- Hn.
  - rewrite Heq in Hnil |- *.
    destruct (showSlide_frame index (createNavigation (createSlides st1)))
      as (Hs & _ & _ & Hmc & _ & _ & _).
    rewrite Hs in Hnil.
    assert (slideGroups child_tagName (contentOf st1) = []) as Hg.
    { unfold createNavigation, createSlides in Hnil. simpl in Hnil.
      apply length_zero_iff_nil. apply (f_equal length) in Hnil.
      by rewrite length_seq in Hnil. }
    rewrite showSlide_no_slide by done.
    destruct (contentOf_build_no_slide st1 Hg) as [_ ->].
    by apply noBoundary_filter, no_slide_no_heading.
Qed.

(** X20: a page whose initialisation produced no slide never gets one.  In
    a reachable state that was initialised and has no slide, whatever the
    user does next, the slide list stays empty, no slide is shown and the
    current index stays 0. *)
Theorem no_slide_forever (evs : list Event) (st : State) :
  reachable st → slides st = [] → slideNav st ≠ None →
  slides (run evs st) = []
  ∧ slideNav (run evs st) ≠ None
  ∧ activeSlides (run evs st) = []
  ∧ currentSlide (run evs st) = 0%Z.
Proof.
  revert st. induction evs as [|ev evs IH]; intros st Hr Hnil Hnav.
  - simpl. split; [done|]. split; [done|]. split.
    + unfold activeSlides. by rewrite Hnil.
    + by apply (reachable_consistent st Hr).
  - change (run (ev :: evs) st) with (run evs (handle ev st)).
    apply IH; [by apply reachable_step| |].
    + destruct (handle_no_slide ev st Hnil)
        as [(Hs & _)|(st1 & index & Hm & Hels & ->)]; [done|].
      destruct (showSlide_frame index (createNavigation (createSlides st1)))
        as (-> & _).
      apply contentOf_build_no_slide, slideGroups_no_boundary.
      rewrite (contentOf_ext st st1 Hm Hels).
      by apply reachable_no_slide_content.
    + destruct (handle_no_slide ev st Hnil)
        as [(_ & -> & _)|(st1 & index & _ & _ & ->)]; [done|].
      by destruct (showSlide_frame index (createNavigation (createSlides st1)))
        as (_ & -> & _).
Qed.

Lemma no_slide_forever_witness :
  let st := handle (ModeClick 1)
              (initial [mkElement 0 "P" []; mkElement 1 "HR" [];
                        mkElement 2 "HR" []] [] sampleBtns "") in
  let evs := [ModeClick 0; ModeClick 1; KeyDown "ArrowRight"; KeyDown "3";
              Navigate "slide-1"; HashChange; ModeClick 1] in
  reachable st ∧ slides st = [] ∧ slideNav st ≠ None
  ∧ slides (run evs st) = []
  ∧ length (navEls (run evs st)) = 3.
Proof.
  intros st evs.
  assert (reachable st) as Hr by apply reachable_step, reachable_initial.
  assert (slideNav st ≠ None) as Hnav by discriminate.
  split; [exact Hr|]. split; [reflexivity|]. split; [exact Hnav|].
  destruct (no_slide_forever evs st Hr eq_refl Hnav) as (Hs & _).
  split; [exact Hs|reflexivity].
Defined.

(** *** When no content is left out *)

Lemma firstBoundary_leading_rule (A : Type) (tagOf : A → string) (hr el : A)
    (rest : list A) :
  tagOf hr = "HR" → firstBoundary tagOf (hr :: el :: rest) ≤ 1.
Proof.
  intros Hhr. unfold firstBoundary, slideBreakPoints.
  apply foldr_min_le. apply elem_of_app. right. apply elem_of_app. left.
  apply (forEachBreaks_hr tagOf _ 0 (hr :: el :: rest) 0 hr); [done|done|].
  simpl. lia.
Qed.

(** X21: the slides hold all of the content but the rules, in order, in
    two cases: when the content starts with an h1 or an h2, and when it
    starts with a rule that is followed by more content. *)
Theorem createSlides_loses_nothing (st : State) (el : Child)
    (rest : list Child) :
  contentOf st = el :: rest →
  child_tagName el = "H1" ∨ child_tagName el = "H2"
  ∨ (child_tagName el = "HR" ∧ rest ≠ []) →
  concat (slideContents (createSlides st))
  = filter (λ el, child_tagName el ≠ "HR") (contentOf st).
Proof.
  intros Hc [H1|[H2|[Hhr Hne]]].
  - apply (createSlides_heading_first st el rest Hc). by left.
  - apply (createSlides_heading_first st el rest Hc). by right.
  - rewrite slideContents_createSlides, concat_slideGroups, Hc.
    destruct rest as [|el' rest]; [done|].
    pose proof (firstBoundary_leading_rule Child child_tagName el el' rest Hhr)
      as Hle.
    unfold slideChildren.
    destruct (firstBoundary child_tagName (el :: el' :: rest)) as [|[|b]];
      [done| |lia].
    change (drop 1 (el :: el' :: rest)) with (el' :: rest).
    rewrite (filter_cons_False _ el); [done|]. intros Hn. by apply Hn.
Qed.

Lemma createSlides_loses_nothing_witness :
  let st := initial [mkElement 0 "HR" []; mkElement 1 "P" [];
                     mkElement 2 "H2" []; mkElement 3 "P" []] [] [] "" in
  contentOf st
  = Page (mkElement 0 "HR" [])
    :: [Page (mkElement 1 "P" []); Page (mkElement 2 "H2" []);
        Page (mkElement 3 "P" [])]
  ∧ slideContents (createSlides st)
    = [[Page (mkElement 1 "P" [])];
       [Page (mkElement 2 "H2" []); Page (mkElement 3 "P" [])]]
  ∧ concat (slideContents (createSlides st))
    = [Page (mkElement 1 "P" []); Page (mkElement 2 "H2" []);
       Page (mkElement 3 "P" [])].
Proof.
  intros st. split; [reflexivity|]. split; [reflexivity|].
  rewrite (createSlides_loses_nothing st _ _ eq_refl).
  - reflexivity.
  - right. right. split; [reflexivity|discriminate].
Defined.

(** *** The pattern is not anchored *)




